(** * Ledger replay: entities, payments and balances at a date

    A shallow embedding of [dataStructures.py] (class [Entity]) and
    [ledgerParser.py] (class [Ledger]).

    Modelling choices.
    - Python objects of class [Entity] live in the ledger's list
      [self.entities]; a reference to an entity is its position in that list
      and Python's [None] is [None].  Two references are the same object
      exactly when they are the same position, so the aliasing of
      [sender] and [receiver] in [pay] is the equality of two positions.
    - Balances and amounts are Python floats; the model computes with exact
      integers ([Z]).  Rounding is outside the model.
    - Names are ASCII strings; [lower] is [str.lower] on ASCII letters.
    - A raised exception leaves the entity list as it was mutated so far:
      every operation returns the list together with its outcome.
    - [csv.reader] gives a file as a list of rows, a row being a list of
      strings.  [datetime.strptime], [datetime.strftime] and [float] are
      Python's own; the replay is stated for any such functions. *)

From stdpp Require Import base list strings numbers.
From Stdlib Require Import ZArith Lia Ascii String.

Local Open Scope string_scope.
Local Open Scope Z_scope.

(** ** Exceptions and results *)

Inductive exn : Type :=
  | Exception (msg : string)
  | ValueError
  | IndexError
  | AttributeError
  | TypeError
  | InvalidReference.
(* [InvalidReference] has no Python counterpart: it marks a position outside
   the entity list, which denotes no object.  [getEntityByName] never
   returns one (lemma [getEntityByName_lt]). *)

Inductive result (A : Type) : Type :=
  | Return (a : A)
  | Raise (e : exn).
Arguments Return {A} a.
Arguments Raise {A} e.

Global Instance result_ret : MRet result := λ A a, Return a.
Global Instance result_bind : MBind result := λ A B k r,
  match r with
  | Return a => k a
  | Raise e => Raise e
  end.
Global Instance result_fmap : FMap result := λ A B f r,
  match r with
  | Return a => Return (f a)
  | Raise e => Raise e
  end.

(** ** class Entity *)

Record Entity : Type := mkEntity {
  name : string;
  type : option string;
  balance : Z
}.

Definition set_balance (b : Z) (e : Entity) : Entity :=
  mkEntity (name e) (type e) b.

Definition add_balance (a : Z) (e : Entity) : Entity :=
  set_balance (balance e + a) e.

(** [allowedToPay = ['person', None]] *)
Definition allowedToPay : list (option string) := [Some "person"; None].

(** [x in l] for a list of optional strings. *)
Definition py_in (x : option string) (l : list (option string)) : bool :=
  bool_decide (x ∈ l).

Definition not_allowed_msg (ty : string) : string :=
  "Transaction not allowed. Trying to sent currency from a " ++ ty ++ " entity.".

(** [Entity.pay(self, receiver, amount)] on the entity list [st]. *)
Definition pay (st : list Entity) (self : nat) (receiver : option nat)
    (amount : Z) : list Entity * result Z :=
  match st !! self with
  | None => (st, Raise InvalidReference)
  | Some e =>
    if py_in (type e) allowedToPay then
      let uncommitedBalance := balance e in
      let uncommitedBalance := uncommitedBalance - amount in
      match receiver with
      | None => (st, Raise AttributeError)
      | Some r =>
        match st !! r with
        | None => (st, Raise InvalidReference)
        | Some _ =>
          let st := alter (add_balance amount) r st in
          let st := alter (set_balance uncommitedBalance) self st in
          (st, Return amount)
        end
      end
    else
      match type e with
      | Some ty => (st, Raise (Exception (not_allowed_msg ty)))
      | None => (st, Raise TypeError)
      end
  end.

(** The sum of the balances of all entities. *)
Definition total (st : list Entity) : Z :=
  foldr (λ e acc, balance e + acc) 0 st.

(** ** class Ledger: lookup by name *)

Definition lower_ascii (c : ascii) : ascii :=
  let n := nat_of_ascii c in
  if ((65 <=? n) && (n <=? 90))%nat then ascii_of_nat (n + 32) else c.

Fixpoint lower (s : string) : string :=
  match s with
  | EmptyString => EmptyString
  | String c r => String (lower_ascii c) (lower r)
  end.

(** [Ledger.getEntityByName(self, name)]: the first entity of the list whose
    lowered name is the lowered [n], or [None]. *)
Fixpoint getEntityByName (entities : list Entity) (n : string) : option nat :=
  match entities with
  | [] => None
  | entity :: rest =>
    if bool_decide (lower (name entity) = lower n) then Some 0%nat
    else S <$> getEntityByName rest n
  end.

(** ** CSV rows *)

Definition row : Type := list string.

(** [l.index(x)]: the first position of [x], or [ValueError]. *)
Fixpoint index (l : list string) (x : string) : result nat :=
  match l with
  | [] => Raise ValueError
  | y :: rest => if bool_decide (y = x) then Return 0%nat else S <$> index rest x
  end.

(** [row[headers.index(col)]] *)
Definition field (headers r : row) (col : string) : result string :=
  i ← index headers col;
  match r !! i with
  | Some s => Return s
  | None => Raise IndexError
  end.

(** [x in l] for a list of strings. *)
Definition str_in (x : string) (l : list string) : bool :=
  bool_decide (x ∈ l).

(** The returned dictionary: its one key and the list of
    [{'name': ..., 'balance': ...}] entries. *)
Definition Snapshot : Type := string * list (string * Z).

Definition no_date_msg : string := "No date was provided.".
Definition headers_msg : string :=
  "sender, receiver, date and amount must be contained as headers in the ledger CSV.".

(** A transaction record: what one data row of the ledger file holds. *)
Record Transaction : Type := mkTransaction {
  tx_date : Z;
  tx_sender : string;
  tx_receiver : string;
  tx_amount : Z
}.

Section Ledger.
(** Python's library: [datetime.strptime(s, fmt)] ([None] for its
    [ValueError]), a datetime being a point on the time line;
    [d.strftime(fmt)]; [float(s)] ([None] for its [ValueError]). *)
Variable strptime : string → string → option Z.
Variable strftime : Z → string → string.
Variable float : string → option Z.

Definition parse_date (s fmt : string) : result Z :=
  match strptime s fmt with
  | Some d => Return d
  | None => Raise ValueError
  end.

Definition parse_float (s : string) : result Z :=
  match float s with
  | Some a => Return a
  | None => Raise ValueError
  end.

(** ** Entity.parseEntities *)

(** The loop over the rows of an entities file. *)
Fixpoint parse_entity_rows (headers : row) (rows : list row)
    (entities : list Entity) : result (list Entity) :=
  match rows with
  | [] => Return entities
  | r :: rest =>
    n ← field headers r "name";
    t ← field headers r "type";
    b ← field headers r "startingBalance";
    bal ← parse_float b;
    parse_entity_rows headers rest (entities ++ [mkEntity n (Some t) bal])%list
  end.

(** The loop over the rows of a transactions file. *)
Fixpoint parse_transaction_rows (headers : row) (rows : list row)
    (entities : list Entity) : result (list Entity) :=
  match rows with
  | [] => Return entities
  | r :: rest =>
    s ← field headers r "sender";
    let entities := (entities ++ [mkEntity s None 0])%list in
    c ← field headers r "receiver";
    let entities := (entities ++ [mkEntity c None 0])%list in
    parse_transaction_rows headers rest entities
  end.

(** [Entity.parseEntities(entitiesFile, transactionsFile)]; a file is
    given by its rows, the first one being the headers. *)
Definition parseEntities (entitiesFile transactionsFile : option (list row))
    : result (list Entity) :=
  match entitiesFile with
  | Some rows =>
    match rows with
    | [] => Return []
    | headers :: data => parse_entity_rows headers data []
    end
  | None =>
    match transactionsFile with
    | Some rows =>
      match rows with
      | [] => Return []
      | headers :: data => parse_transaction_rows headers data []
      end
    | None => Return []
    end
  end.

(** ** Ledger.getBalanceAtDate *)

(** [[{'name': e.name, 'balance': e.balance} for e in self.entities]]
    under the key [date.strftime(format)]. *)
Definition snapshot (date : Z) (format : string) (entities : list Entity)
    : Snapshot :=
  (strftime date format, (λ e, (name e, balance e)) <$> entities).

(** What one data row gives before its date is compared with the cutoff:
    the sender and the receiver found by name, the date, the amount. *)
Definition read_row (entities : list Entity) (headers r : row)
    : result (option nat * option nat * Z * Z) :=
  s ← field headers r "sender";
  let sender := getEntityByName entities s in
  c ← field headers r "receiver";
  let receiver := getEntityByName entities c in
  d ← field headers r "date";
  currentDate ← parse_date d "%Y-%m-%d";
  a ← field headers r "amount";
  amount ← parse_float a;
  Return (sender, receiver, currentDate, amount).

(** The loop over the data rows of the ledger file. Leaving the loop at
    the end of the file leaves the function without a [return]: Python
    returns [None]. *)
Fixpoint replay (headers : row) (date : Z) (format : string)
    (entities : list Entity) (rows : list row)
    : list Entity * result (option Snapshot) :=
  match rows with
  | [] => (entities, Return None)
  | r :: rest =>
    match read_row entities headers r with
    | Raise e => (entities, Raise e)
    | Return (sender, receiver, currentDate, amount) =>
      if (currentDate <=? date)%Z then
        match sender with
        | None => (entities, Raise AttributeError)
        | Some s =>
          match pay entities s receiver amount with
          | (entities, Raise e) => (entities, Raise e)
          | (entities, Return _) => replay headers date format entities rest
          end
        end
      else (entities, Return (Some (snapshot date format entities)))
    end
  end.

(** [Ledger.getBalanceAtDate(self, date, format)], with [self.entities]
    and the rows of [self.ledgerFile]. *)
Definition getBalanceAtDate (entities : list Entity) (ledgerFile : list row)
    (date : option string) (format : string)
    : list Entity * result (option Snapshot) :=
  match date with
  | None => (entities, Raise (Exception no_date_msg))
  | Some date =>
    match parse_date date format with
    | Raise e => (entities, Raise e)
    | Return date =>
      match ledgerFile with
      | [] => (entities, Return None)
      | headers :: data =>
        if negb (str_in "sender" headers) || negb (str_in "receiver" headers)
           || negb (str_in "date" headers) || negb (str_in "amount" headers)
        then (entities, Raise (Exception headers_msg))
        else replay headers date format entities data
      end
    end
  end.

(** ** The transition rule, record by record

    The rule of the replay in the words of its description: the rows are
    transaction records; a record is applied by resolving its sender and
    its receiver by name and making the transfer; records are applied in
    the order of the stream. *)

Definition record_of (headers r : row) : result Transaction :=
  s ← field headers r "sender";
  c ← field headers r "receiver";
  d ← field headers r "date";
  currentDate ← parse_date d "%Y-%m-%d";
  a ← field headers r "amount";
  amount ← parse_float a;
  Return (mkTransaction currentDate s c amount).

Definition transfer_record (entities : list Entity) (t : Transaction)
    : list Entity * result Z :=
  match getEntityByName entities (tx_sender t) with
  | None => (entities, Raise AttributeError)
  | Some s =>
    pay entities s (getEntityByName entities (tx_receiver t)) (tx_amount t)
  end.

Fixpoint apply_in_order (entities : list Entity) (ts : list Transaction)
    : list Entity * result unit :=
  match ts with
  | [] => (entities, Return ())
  | t :: rest =>
    match transfer_record entities t with
    | (entities, Raise e) => (entities, Raise e)
    | (entities, Return _) => apply_in_order entities rest
    end
  end.

End Ledger.

(** Position [j] holds a later duplicate: an earlier entity of the list has
    the same name up to case. *)
Definition later_duplicate (entities : list Entity) (j : nat) : Prop :=
  ∃ i ei ej, (i < j)%nat ∧ entities !! i = Some ei ∧ entities !! j = Some ej
    ∧ lower (name ei) = lower (name ej).

(** ** Python's library on the default date format and on whole numbers

    The replay is stated for any [strptime], [strftime] and [float].  To run
    it on concrete files, here are the three on the inputs the examples use:
    dates written [YYYY-MM-DD] under the format ["%Y-%m-%d"] (a date is
    numbered [YYYYMMDD], so that dates compare as their numbers do), and
    amounts written as whole numbers. *)

Definition digit_of (c : ascii) : option Z :=
  let n := Z.of_nat (nat_of_ascii c) in
  if (48 <=? n)%Z && (n <=? 57)%Z then Some (n - 48) else None.

Fixpoint digits_acc (s : string) (acc : Z) : option Z :=
  match s with
  | EmptyString => Some acc
  | String c r =>
    match digit_of c with
    | Some d => digits_acc r (acc * 10 + d)
    | None => None
    end
  end.

Definition digits (s : string) : option Z :=
  match s with
  | EmptyString => None
  | _ => digits_acc s 0
  end.

Definition days_in_month (y m : Z) : Z :=
  if (m =? 2)%Z then
    if ((y mod 4 =? 0) && (negb (y mod 100 =? 0) || (y mod 400 =? 0)))%Z
    then 29 else 28
  else if ((m =? 4) || (m =? 6) || (m =? 9) || (m =? 11))%Z then 30 else 31.

Definition iso_strptime (s fmt : string) : option Z :=
  if bool_decide (fmt = "%Y-%m-%d") && bool_decide (String.length s = 10%nat)
     && bool_decide (substring 4 1 s = "-") && bool_decide (substring 7 1 s = "-")
  then
    match digits (substring 0 4 s), digits (substring 5 2 s),
          digits (substring 8 2 s) with
    | Some y, Some m, Some d =>
      if ((1 <=? y) && (1 <=? m) && (m <=? 12) && (1 <=? d)
          && (d <=? days_in_month y m))%Z
      then Some (y * 10000 + m * 100 + d)
      else None
    | _, _, _ => None
    end
  else None.

Definition digit_char (d : Z) : string :=
  String (ascii_of_nat (48 + Z.to_nat (d mod 10))) EmptyString.

Definition iso_strftime (d : Z) (fmt : string) : string :=
  if bool_decide (fmt = "%Y-%m-%d") then
    let y := d / 10000 in
    let m := (d / 100) mod 100 in
    let dd := d mod 100 in
    digit_char (y / 1000) ++ digit_char (y / 100) ++ digit_char (y / 10)
    ++ digit_char y ++ "-" ++ digit_char (m / 10) ++ digit_char m
    ++ "-" ++ digit_char (dd / 10) ++ digit_char dd
  else fmt.

Definition whole_float (s : string) : option Z :=
  match s with
  | String "-" r => Z.opp <$> digits r
  | _ => digits s
  end.

(** ** The balance of an entity after a list of records

    The balance that the records give, one after the other, to the entity
    found under the name [n], from the balance [b]: a record that names the
    entity as its sender takes its amount from the balance, be the entity
    its receiver too or not; any other record that names it as its receiver
    adds its amount; names are compared as the lookup compares them. *)
Fixpoint balance_after (n : string) (b : Z) (ts : list Transaction) : Z :=
  match ts with
  | [] => b
  | t :: rest =>
    balance_after n
      (if bool_decide (lower (tx_sender t) = lower n) then b - tx_amount t
       else if bool_decide (lower (tx_receiver t) = lower n) then b + tx_amount t
       else b)
      rest
  end.

(** ** class Ledger as an object, with the files on disk

    The functions above take the rows of a file.  The methods take the name
    of a file and open it; [open] adds one exception, [IOError] for a name
    with no file, to those of [exn]. *)

Inductive io_exn : Type :=
  | IOError
  | Py (e : exn).

Inductive outcome (A : Type) : Type :=
  | Done (a : A)
  | Failed (e : io_exn).
Arguments Done {A} a.
Arguments Failed {A} e.

Definition lift {A : Type} (r : result A) : outcome A :=
  match r with
  | Return a => Done a
  | Raise e => Failed (Py e)
  end.

(** The attributes of a [Ledger]; both are [None] until a file is parsed. *)
Record Ledger : Type := mkLedger {
  self_entities : option (list Entity);
  self_ledgerFile : option string
}.

(** [Ledger.__init__] *)
Definition Ledger_init : Ledger := mkLedger None None.

Section Files.
(** The csv files on disk: the rows of the file of a given name. *)
Variable fs : string → option (list row).
Variable strptime : string → string → option Z.
Variable strftime : Z → string → string.
Variable float : string → option Z.
(** [str.capitalize] and ["{:.2f}".format]. *)
Variable capitalize : string → string.
Variable format_2f : Z → string.

(** [open(f)] read through [csv.reader]. *)
Definition open_csv (f : option string) : outcome (list row) :=
  match f with
  | None => Failed (Py TypeError)
  | Some n =>
    match fs n with
    | Some rows => Done rows
    | None => Failed IOError
    end
  end.

(** [Entity.parseEntities(entitiesFile, transactionsFile)] on file names. *)
Definition parseEntities_files (entitiesFile transactionsFile : option string)
    : outcome (list Entity) :=
  match entitiesFile with
  | Some f =>
    match open_csv (Some f) with
    | Done rows => lift (parseEntities float (Some rows) None)
    | Failed e => Failed e
    end
  | None =>
    match transactionsFile with
    | Some f =>
      match open_csv (Some f) with
      | Done rows => lift (parseEntities float None (Some rows))
      | Failed e => Failed e
      end
    | None => Done []
    end
  end.

(** [Ledger.parseLedger(self, ledgerFile)]: the attribute [ledgerFile] is
    set before the entities are parsed. *)
Definition parseLedger (self : Ledger) (ledgerFile : option string)
    : Ledger * outcome unit :=
  let self := mkLedger (self_entities self) ledgerFile in
  match parseEntities_files None ledgerFile with
  | Done entities => (mkLedger (Some entities) (self_ledgerFile self), Done ())
  | Failed e => (self, Failed e)
  end.

(** The loop of [getBalanceAtDate] when [self.entities] is [None]: the
    first data row fails, in [getEntityByName], once its sender is read. *)
Definition replay_unparsed (ledgerFile : list row) : outcome (option Snapshot) :=
  match ledgerFile with
  | [] => Done None
  | headers :: data =>
    if negb (str_in "sender" headers) || negb (str_in "receiver" headers)
       || negb (str_in "date" headers) || negb (str_in "amount" headers)
    then Failed (Py (Exception headers_msg))
    else
      match data with
      | [] => Done None
      | r :: _ =>
        match field headers r "sender" with
        | Return _ => Failed (Py TypeError)
        | Raise e => Failed (Py e)
        end
      end
  end.

(** [Ledger.getBalanceAtDate(self, date, format)] as a method: the date is
    checked and parsed, then the file is opened, then the rows are read. *)
Definition Ledger_getBalanceAtDate (self : Ledger) (date : option string)
    (format : string) : Ledger * outcome (option Snapshot) :=
  match date with
  | None => (self, Failed (Py (Exception no_date_msg)))
  | Some d =>
    match parse_date strptime d format with
    | Raise e => (self, Failed (Py e))
    | Return _ =>
      match open_csv (self_ledgerFile self) with
      | Failed e => (self, Failed e)
      | Done rows =>
        match self_entities self with
        | None => (self, replay_unparsed rows)
        | Some entities =>
          match getBalanceAtDate strptime strftime float entities rows
                  (Some d) format with
          | (entities, r) =>
            (mkLedger (Some entities) (self_ledgerFile self), lift r)
          end
        end
      end
    end
  end.

(** [Ledger.printBalanceAtDate(self, date, format)], with the lines it
    prints. *)
Definition printBalanceAtDate (self : Ledger) (date : option string)
    (format : string) : Ledger * list string * outcome unit :=
  match Ledger_getBalanceAtDate self date format with
  | (self, Failed e) => (self, [], Failed e)
  | (self, Done None) => (self, [], Failed (Py AttributeError))
  | (self, Done (Some (key, balances))) =>
    (self,
     ("Balances on " ++ key ++ ":")%string
     :: ((λ nb, (capitalize nb.1 ++ " has a balance of ยง"
                 ++ format_2f nb.2 ++ ".")%string) <$> balances),
     Done ())
  end.

End Files.

(** ** Example data *)

Definition ledger_headers : row := ["date"; "sender"; "receiver"; "amount"].

Definition alice : Entity := mkEntity "Alice" (Some "person") 100.
Definition bob : Entity := mkEntity "Bob" (Some "company") 50.
Definition carol : Entity := mkEntity "Carol" (Some "person") 20.

Definition fmt : string := "%Y-%m-%d".

(** Alice pays Bob on the first day, Bob pays Alice on the second. *)
Definition ledger_two_days : list row :=
  [ledger_headers;
   ["2021-01-01"; "Alice"; "Bob"; "30"];
   ["2021-01-02"; "Bob"; "Alice"; "10"]].

(** The entities that [parseEntities] builds from [ledger_two_days]. *)
Definition parsed_two_days : list Entity :=
  [mkEntity "Alice" None 0; mkEntity "Bob" None 0;
   mkEntity "Bob" None 0; mkEntity "Alice" None 0].

(** One record, dated on the cutoff of the examples. *)
Definition ledger_one_day : list row :=
  [ledger_headers; ["2021-01-01"; "Alice"; "Carol"; "30"]].

(** Alice pays Carol on two days. *)
Definition ledger_alice_carol : list row :=
  [ledger_headers;
   ["2021-01-01"; "Alice"; "Carol"; "30"];
   ["2021-01-02"; "Alice"; "Carol"; "5"]].

(** A stream that is not sorted: its third record is dated before its
    second. *)
Definition row_day1 : row := ["2021-01-01"; "Alice"; "Carol"; "30"].
Definition row_day5 : row := ["2021-01-05"; "Alice"; "Carol"; "5"].
Definition row_day2 : row := ["2021-01-02"; "Carol"; "Alice"; "7"].

(** Alice pays herself on the first day. *)
Definition ledger_self_payment : list row :=
  [ledger_headers;
   ["2021-01-01"; "Alice"; "ALICE"; "30"];
   ["2021-01-02"; "Alice"; "Carol"; "5"]].

(** A record of two names that no entity has. *)
Definition row_strangers : row := ["2021-01-05"; "Dave"; "Erin"; "5"].

(** An entities file; the type of Carol is blank. *)
Definition entities_file : list row :=
  [["name"; "type"; "startingBalance"];
   ["Alice"; "person"; "100"];
   ["Bob"; "company"; "50"];
   ["Carol"; ""; "20"]].

(** A row whose amount is not a number, dated after the cutoff of the
    examples. *)
Definition row_bad_amount : row := ["2021-01-05"; "Alice"; "Carol"; "five"].

(** Header rows that lack a column. *)
Definition headers_no_receiver : row := ["date"; "sender"; "amount"].
Definition headers_from_to : row := ["date"; "from"; "to"; "amount"].

(** The files on disk in the examples. *)
Definition disk (n : string) : option (list row) :=
  if bool_decide (n = "transactions.csv") then Some ledger_two_days
  else if bool_decide (n = "one_day.csv") then Some ledger_one_day
  else None.

(** [str.capitalize] on ASCII letters, and ["{:.2f}".format] on whole
    numbers. *)
Definition upper_ascii (c : ascii) : ascii :=
  let n := nat_of_ascii c in
  if ((97 <=? n) && (n <=? 122))%nat then ascii_of_nat (n - 32) else c.

Definition ascii_capitalize (s : string) : string :=
  match s with
  | EmptyString => EmptyString
  | String c r => String (upper_ascii c) (lower r)
  end.

Fixpoint decimal_acc (fuel : nat) (n : Z) (acc : string) : string :=
  match fuel with
  | O => acc
  | S fuel =>
    let acc := (digit_char n ++ acc)%string in
    if (n <? 10)%Z then acc else decimal_acc fuel (n / 10) acc
  end.

Definition decimal (z : Z) : string :=
  let digits := decimal_acc (S (Z.to_nat (Z.log2 (Z.abs z)))) (Z.abs z) "" in
  if (z <? 0)%Z then ("-" ++ digits)%string else digits.

Definition whole_format_2f (z : Z) : string := (decimal z ++ ".00")%string.

(** * Properties *)

(** ** Lookup by name *)

Lemma getEntityByName_Some (entities : list Entity) (n : string) (i : nat) :
  getEntityByName entities n = Some i ↔
  (∃ e, entities !! i = Some e ∧ lower (name e) = lower n) ∧
  (∀ j e, (j < i)%nat → entities !! j = Some e → lower (name e) ≠ lower n).
Proof.
  revert i. induction entities as [|x rest IH]; intros i; simpl.
  - split; [done|]. intros [(e & He & _) _]. done.
  - case_bool_decide as Hx.
    + split.
      * intros [= <-]. split; [by exists x|]. intros j e Hj. lia.
      * intros [_ Hfirst]. destruct i as [|i]; [done|].
        exfalso. apply (Hfirst 0%nat x); [lia|done|done].
    + rewrite fmap_Some. split.
      * intros (i' & Hrec & ->). apply IH in Hrec as [(e & He & Hn) Hfirst].
        split; [by exists e|].
        intros [|j] e' Hj He'; simpl in He'.
        -- by injection He' as <-.
        -- apply (Hfirst j); [lia|done].
      * intros [(e & He & Hn) Hfirst]. destruct i as [|i].
        -- simpl in He. injection He as <-. done.
        -- exists i. split; [|done]. apply IH. split; [by exists e|].
           intros j e' Hj He'. apply (Hfirst (S j)); [lia|done].
Qed.

Lemma getEntityByName_None (entities : list Entity) (n : string) :
  getEntityByName entities n = None ↔
  ∀ e, e ∈ entities → lower (name e) ≠ lower n.
Proof.
  induction entities as [|x rest IH]; simpl.
  - split; [|done]. intros _ e He. by apply elem_of_nil in He.
  - case_bool_decide as Hx.
    + split; [done|]. intros H. exfalso. apply (H x); [left|done].
    + rewrite fmap_None, IH. split.
      * intros H e [->|He]%elem_of_cons; [done|by apply H].
      * intros H e He. apply H. by right.
Qed.

Lemma getEntityByName_lt (entities : list Entity) (n : string) (i : nat) :
  getEntityByName entities n = Some i → (i < List.length entities)%nat.
Proof.
  intros [(e & He & _) _]%getEntityByName_Some. by eapply lookup_lt_Some.
Qed.

(** The lookup reads the names only, and only up to case. *)
Lemma getEntityByName_names (st st' : list Entity) (n : string) :
  name <$> st' = name <$> st → getEntityByName st' n = getEntityByName st n.
Proof.
  revert st. induction st' as [|x' rest' IH]; intros [|x rest] H;
    simpl in *; try done.
  injection H as Hx Hrest. rewrite Hx, (IH rest Hrest). done.
Qed.

Lemma getEntityByName_lower (entities : list Entity) (n1 n2 : string) :
  lower n1 = lower n2 → getEntityByName entities n1 = getEntityByName entities n2.
Proof.
  intros H. induction entities as [|x rest IH]; simpl; [done|].
  by rewrite H, IH.
Qed.

(** ** Payments *)

Lemma total_alter (f : Entity → Entity) (st : list Entity) (i : nat) (e : Entity) :
  st !! i = Some e →
  total (alter f i st) = total st - balance e + balance (f e).
Proof.
  revert i. induction st as [|x rest IH]; intros [|i] H; simpl in H; try done.
  - injection H as ->. cbn. lia.
  - specialize (IH i H). unfold total in IH. cbn. lia.
Qed.

Lemma alter_names (f : Entity → Entity) (st : list Entity) (i : nat) :
  (∀ e, name (f e) = name e) → name <$> alter f i st = name <$> st.
Proof.
  intros Hf. revert i. induction st as [|x rest IH]; intros [|i]; try done.
  - cbn. by rewrite Hf.
  - specialize (IH i). cbn in *. by f_equal.
Qed.

(** A payment changes no name and no length. *)
Lemma pay_names (st : list Entity) (self : nat) (receiver : option nat) (amount : Z) :
  name <$> (pay st self receiver amount).1 = name <$> st.
Proof.
  unfold pay. destruct (st !! self) as [e|]; [|done].
  destruct (py_in _ _).
  - destruct receiver as [r|]; [|done]. destruct (st !! r); [|done]. simpl.
    rewrite !alter_names; done.
  - by destruct (type e).
Qed.

(** A payment leaves every entity other than its two parties as it was. *)
Lemma pay_other (st : list Entity) (self : nat) (receiver : option nat)
    (amount : Z) (j : nat) :
  j ≠ self → receiver ≠ Some j →
  (pay st self receiver amount).1 !! j = st !! j.
Proof.
  intros Hs Hr. unfold pay. destruct (st !! self) as [e|]; [|done].
  destruct (py_in _ _).
  - destruct receiver as [r|]; [|done]. destruct (st !! r); [|done]. simpl.
    rewrite !list_lookup_alter_ne; [done|congruence|done].
  - by destruct (type e).
Qed.

(** A failed payment changes nothing. *)
Lemma pay_Raise (st st' : list Entity) (self : nat) (receiver : option nat)
    (amount : Z) (err : exn) :
  pay st self receiver amount = (st', Raise err) → st' = st.
Proof.
  unfold pay. destruct (st !! self) as [e|]; [|by intros [= <-]].
  destruct (py_in _ _).
  - destruct receiver as [r|]; [|by intros [= <-]].
    destruct (st !! r); [done|by intros [= <-]].
  - destruct (type e); by intros [= <-].
Qed.

(** The transfer between two different entities: the sender is debited, the
    receiver is credited, the total is kept. *)
Lemma pay_distinct (st : list Entity) (self r : nat) (es er : Entity) (amount : Z) :
  st !! self = Some es → st !! r = Some er → self ≠ r →
  type es ∈ allowedToPay →
  ∃ st', pay st self (Some r) amount = (st', Return amount) ∧
    st' !! self = Some (set_balance (balance es - amount) es) ∧
    st' !! r = Some (add_balance amount er) ∧
    total st' = total st.
Proof.
  intros Hs Hr Hne Hty. unfold pay, py_in. rewrite Hs, Hr.
  rewrite bool_decide_eq_true_2 by done.
  eexists. split; [done|].
  assert (alter (add_balance amount) r st !! self = Some es) as Hs1
    by (by rewrite list_lookup_alter_ne).
  split; [|split].
  - rewrite list_lookup_alter_eq, Hs1. done.
  - rewrite list_lookup_alter_ne by done.
    rewrite list_lookup_alter_eq, Hr. done.
  - rewrite (total_alter _ _ _ _ Hs1), (total_alter _ _ _ _ Hr). simpl. lia.
Qed.

(** The transfer of an entity to itself: the credit is overwritten by the
    uncommitted balance, so the entity loses the amount and so does the
    total. *)
Lemma pay_self (st : list Entity) (self : nat) (e : Entity) (amount : Z) :
  st !! self = Some e → type e ∈ allowedToPay →
  ∃ st', pay st self (Some self) amount = (st', Return amount) ∧
    st' !! self = Some (set_balance (balance e - amount) e) ∧
    total st' = total st - amount.
Proof.
  intros Hs Hty. unfold pay, py_in. rewrite Hs.
  rewrite bool_decide_eq_true_2 by done.
  eexists. split; [done|].
  assert (alter (add_balance amount) self st !! self = Some (add_balance amount e))
    as Hs1 by (by rewrite list_lookup_alter_eq, Hs).
  split.
  - rewrite list_lookup_alter_eq, Hs1. done.
  - rewrite (total_alter _ _ _ _ Hs1), (total_alter _ _ _ _ Hs). simpl. lia.
Qed.

Lemma pay_no_receiver_allowed (st : list Entity) (self : nat) (e : Entity)
    (amount : Z) :
  st !! self = Some e → type e ∈ allowedToPay →
  pay st self None amount = (st, Raise AttributeError).
Proof.
  intros Hs Hty. unfold pay, py_in. rewrite Hs.
  by rewrite bool_decide_eq_true_2 by done.
Qed.

(** ** Claims on payments *)

(** C2, at the input where the code departs from it: an entity that pays
    itself 30 out of 100 ends with 70.  The payment succeeds, but the
    receiver does not hold the 130 of the claim, and the total goes from 100
    to 70.  The replay makes such a payment for a record whose two names
    are those of one entity. *)
Theorem pay_self_loses_amount :
  pay [alice] 0 (Some 0%nat) 30 = ([set_balance 70 alice], Return 30) ∧
  balance alice = 100 ∧
  total [alice] = 100 ∧ total (pay [alice] 0 (Some 0%nat) 30).1 = 70 ∧
  getBalanceAtDate iso_strptime iso_strftime whole_float [alice; carol]
    ledger_self_payment (Some "2021-01-01") fmt
  = ([set_balance 70 alice; carol],
     Return (Some ("2021-01-01", [("Alice", 70); ("Carol", 20)]))).
Proof. repeat split; vm_compute; reflexivity. Qed.

(** C4: a payment by an entity whose type is not in [allowedToPay] raises
    the exception whose message names that type, whatever the amount and the
    receiver, and changes no balance. *)
Theorem pay_not_allowed (st : list Entity) (self : nat) (e : Entity)
    (receiver : option nat) (amount : Z) :
  st !! self = Some e → type e ∉ allowedToPay →
  ∃ ty, type e = Some ty ∧
    pay st self receiver amount = (st, Raise (Exception (not_allowed_msg ty))).
Proof.
  intros Hs Hty. unfold pay, py_in. rewrite Hs.
  rewrite bool_decide_eq_false_2 by done.
  destruct (type e) as [ty|] eqn:E.
  - by exists ty.
  - exfalso. apply Hty. unfold allowedToPay. right. left.
Qed.

Lemma pay_not_allowed_witness :
  ∃ ty, type bob = Some ty ∧
    pay [alice; bob] 1 (Some 0%nat) 10
    = ([alice; bob], Raise (Exception (not_allowed_msg ty))).
Proof.
  apply (pay_not_allowed [alice; bob] 1 bob (Some 0%nat) 10).
  - reflexivity.
  - apply (bool_decide_eq_false_1 (type bob ∈ allowedToPay)). vm_compute. reflexivity.
Defined.

(** C5 as stated fails: with no receiver, a company's payment raises the
    payer exception, not the [AttributeError] of the missing receiver. *)
Lemma pay_no_receiver_company :
  pay [alice; bob] 1 None 10
  = ([alice; bob], Raise (Exception (not_allowed_msg "company"))) ∧
  (pay [alice; bob] 1 None 10).2 ≠ Raise AttributeError.
Proof. split; [reflexivity|]. vm_compute. discriminate. Qed.

(** C5, amended: a payment with no receiver always fails and changes no
    balance.  It raises [AttributeError] when the sender's type is allowed
    to pay (a listed type, or no type), and the payer exception naming the
    type when it is not. *)
Theorem pay_no_receiver (st : list Entity) (self : nat) (e : Entity) (amount : Z) :
  st !! self = Some e →
  pay st self None amount =
  (st, Raise match type e with
             | Some ty =>
               if bool_decide (Some ty ∈ allowedToPay) then AttributeError
               else Exception (not_allowed_msg ty)
             | None => AttributeError
             end).
Proof.
  intros Hs. unfold pay, py_in. rewrite Hs.
  destruct (type e) as [ty|].
  - by case_bool_decide.
  - rewrite bool_decide_eq_true_2; [done|]. unfold allowedToPay. right. left.
Qed.

Lemma pay_no_receiver_witness :
  pay [alice; bob] 0 None 10 = ([alice; bob], Raise AttributeError).
Proof. apply (pay_no_receiver [alice; bob] 0 alice 10). reflexivity. Defined.

(** ** Claims on the lookup *)

(** C8: the lookup does not see the case of letters.  Two spellings that
    differ by case only of the name of a listed entity are both found, at
    the same position, and the entity found there has that name up to case;
    it is the listed entity itself when no two names of the list agree up to
    case. *)
Theorem getEntityByName_case_insensitive (entities : list Entity) (e : Entity)
    (n1 n2 : string) :
  e ∈ entities → lower n1 = lower (name e) → lower n2 = lower (name e) →
  ∃ i e', getEntityByName entities n1 = Some i ∧
    getEntityByName entities n2 = Some i ∧
    entities !! i = Some e' ∧ lower (name e') = lower (name e) ∧
    (NoDup ((λ x, lower (name x)) <$> entities) → e' = e).
Proof.
  intros He H1 H2.
  destruct (getEntityByName entities n1) as [i|] eqn:E.
  - pose proof E as [(e' & He' & Hn) _]%getEntityByName_Some.
    exists i, e'. split; [done|]. split.
    { rewrite <- E. apply getEntityByName_lower. congruence. }
    split; [done|]. split; [congruence|].
    intros Hnd. apply list_elem_of_lookup in He as [j Hj].
    assert (i = j) as ->; [|congruence].
    eapply (NoDup_lookup _ i j (lower (name e))); [done| |].
    + rewrite list_lookup_fmap, He'. simpl. congruence.
    + rewrite list_lookup_fmap, Hj. done.
  - exfalso. rewrite getEntityByName_None in E. by apply (E e).
Qed.

Lemma getEntityByName_case_insensitive_witness :
  ∃ i, getEntityByName [alice; bob] "ALICE" = Some i ∧
    getEntityByName [alice; bob] "alice" = Some i ∧
    [alice; bob] !! i = Some alice.
Proof.
  destruct (getEntityByName_case_insensitive [alice; bob] alice "ALICE" "alice")
    as (i & e' & H1 & H2 & H3 & _ & H5).
  - left.
  - reflexivity.
  - reflexivity.
  - exists i. rewrite H5 in H3; [done|].
    apply (bool_decide_unpack _). vm_compute. reflexivity.
Defined.

(** ** The replay, row by row *)

Lemma index_Return (l : list string) (x : string) (i : nat) :
  index l x = Return i → l !! i = Some x.
Proof.
  revert i. induction l as [|y rest IH]; intros i; simpl; [done|].
  case_bool_decide as Hy.
  - intros [= <-]. by rewrite Hy.
  - destruct (index rest x) as [i'|] eqn:E; [|done].
    intros [= <-]. by apply IH.
Qed.

Lemma field_Return_in (headers r : row) (col s : string) :
  field headers r col = Return s → str_in col headers = true.
Proof.
  unfold field. destruct (index headers col) as [i|] eqn:E; [|done].
  intros _. apply bool_decide_eq_true. apply list_elem_of_lookup.
  exists i. by apply index_Return.
Qed.

Section Replay.
Variable strptime : string → string → option Z.
Variable strftime : Z → string → string.
Variable float : string → option Z.

Local Abbreviation record_of := (record_of strptime float).
Local Abbreviation read_row := (read_row strptime float).
Local Abbreviation replay := (replay strptime strftime float).
Local Abbreviation snapshot := (snapshot strftime).
Local Abbreviation getBalanceAtDate := (getBalanceAtDate strptime strftime float).

Lemma read_row_record_of (entities : list Entity) (headers r : row) :
  read_row entities headers r =
  (t ← record_of headers r;
   Return (getEntityByName entities (tx_sender t),
           getEntityByName entities (tx_receiver t), tx_date t, tx_amount t)).
Proof.
  unfold read_row, record_of.
  destruct (field headers r "sender"); [|done].
  destruct (field headers r "receiver"); [|done].
  destruct (field headers r "date"); [|done]. cbn.
  destruct (parse_date _ _ _); [|done]. cbn.
  destruct (field headers r "amount"); [|done]. cbn.
  destruct (parse_float _ _); done.
Qed.

Lemma record_of_headers (headers r : row) (t : Transaction) :
  record_of headers r = Return t →
  negb (str_in "sender" headers) || negb (str_in "receiver" headers)
  || negb (str_in "date" headers) || negb (str_in "amount" headers) = false.
Proof.
  unfold record_of.
  destruct (field headers r "sender") eqn:E1; [|done].
  destruct (field headers r "receiver") eqn:E2; [|done].
  destruct (field headers r "date") eqn:E3; [|done]. cbn.
  destruct (parse_date _ _ _); [|done]. cbn.
  destruct (field headers r "amount") eqn:E4; [|done]. intros _.
  by rewrite (field_Return_in _ _ _ _ E1), (field_Return_in _ _ _ _ E2),
    (field_Return_in _ _ _ _ E3), (field_Return_in _ _ _ _ E4).
Qed.

(** A record dated on or before the cutoff is applied, and the loop goes
    on from the entities it leaves, unless it fails. *)
Lemma replay_cons_le (headers : row) (date : Z) (format : string)
    (entities : list Entity) (r : row) (rest : list row) (t : Transaction) :
  record_of headers r = Return t → tx_date t ≤ date →
  replay headers date format entities (r :: rest) =
  match transfer_record entities t with
  | (entities', Raise e) => (entities', Raise e)
  | (entities', Return _) => replay headers date format entities' rest
  end.
Proof.
  intros Ht Hle. cbn [replay].
  rewrite read_row_record_of, Ht. cbn.
  rewrite (proj2 (Z.leb_le _ _)) by done.
  unfold transfer_record. by destruct (getEntityByName _ _).
Qed.

(** A record dated after the cutoff ends the loop with the snapshot of the
    entities as they are; the rows after it are not read. *)
Lemma replay_cons_gt (headers : row) (date : Z) (format : string)
    (entities : list Entity) (r : row) (rest : list row) (t : Transaction) :
  record_of headers r = Return t → date < tx_date t →
  replay headers date format entities (r :: rest) =
  (entities, Return (Some (snapshot date format entities))).
Proof.
  intros Ht Hgt. cbn [replay].
  rewrite read_row_record_of, Ht. cbn.
  by rewrite (proj2 (Z.leb_gt _ _)) by done.
Qed.

(** Rows all dated on or before the cutoff are applied in their order. *)
Lemma replay_app (headers : row) (date : Z) (format : string)
    (pre post : list row) (ts : list Transaction) (entities : list Entity) :
  Forall2 (λ r t, record_of headers r = Return t ∧ tx_date t ≤ date) pre ts →
  replay headers date format entities (pre ++ post) =
  match apply_in_order entities ts with
  | (entities', Raise e) => (entities', Raise e)
  | (entities', Return _) => replay headers date format entities' post
  end.
Proof.
  intros H. revert entities.
  induction H as [|r t pre ts [Ht Hle] _ IH]; intros entities; [done|].
  rewrite <- app_comm_cons, (replay_cons_le _ _ _ _ _ _ _ Ht Hle). cbn.
  destruct (transfer_record entities t) as [entities' [a|e]]; [|done].
  apply IH.
Qed.

(** The replay changes no name, and changes no entity that the lookup
    never gives. *)
Lemma transfer_record_untouched (entities : list Entity) (t : Transaction) :
  name <$> (transfer_record entities t).1 = name <$> entities ∧
  ∀ j, (∀ n, getEntityByName entities n ≠ Some j) →
    (transfer_record entities t).1 !! j = entities !! j.
Proof.
  unfold transfer_record.
  destruct (getEntityByName entities (tx_sender t)) as [s|] eqn:Es; [|done].
  split; [apply pay_names|].
  intros j Hj. apply pay_other.
  - intros ->. by apply (Hj (tx_sender t)).
  - apply Hj.
Qed.

Lemma replay_untouched (headers : row) (date : Z) (format : string)
    (rows : list row) (entities : list Entity) :
  name <$> (replay headers date format entities rows).1 = name <$> entities ∧
  ∀ j, (∀ n, getEntityByName entities n ≠ Some j) →
    (replay headers date format entities rows).1 !! j = entities !! j.
Proof.
  revert entities. induction rows as [|r rest IH]; intros entities; [done|].
  cbn [replay]. rewrite read_row_record_of.
  destruct (record_of headers r) as [t|]; [|done]. cbn.
  destruct (tx_date t <=? date)%Z; [|done].
  pose proof (transfer_record_untouched entities t) as [Hn Hu].
  unfold transfer_record in Hn, Hu.
  destruct (getEntityByName entities (tx_sender t)) as [s|]; [|done].
  destruct (pay entities s _ _) as [entities' [a|e]]; [|done].
  simpl in Hn, Hu. destruct (IH entities') as [IHn IHu]. split.
  - by rewrite IHn.
  - intros j Hj. rewrite IHu; [by apply Hu|].
    intros n. rewrite (getEntityByName_names _ _ _ Hn). apply Hj.
Qed.

Lemma replay_snapshot (headers : row) (date : Z) (format : string)
    (rows : list row) (entities : list Entity) (sn : Snapshot) :
  (replay headers date format entities rows).2 = Return (Some sn) →
  sn = snapshot date format (replay headers date format entities rows).1.
Proof.
  revert entities. induction rows as [|r rest IH]; intros entities; [done|].
  cbn [replay].
  destruct (read_row entities headers r) as [[[[sender receiver] d] a]|]; [|done].
  destruct (d <=? date)%Z; [|by intros [= <-]].
  destruct sender as [s|]; [|done].
  destruct (pay entities s receiver a) as [entities' [?|?]]; [|done].
  apply IH.
Qed.

Lemma getBalanceAtDate_untouched (entities : list Entity) (ledgerFile : list row)
    (date : option string) (format : string) :
  let out := getBalanceAtDate entities ledgerFile date format in
  (∀ j, (∀ n, getEntityByName entities n ≠ Some j) → out.1 !! j = entities !! j) ∧
  (∀ sn, out.2 = Return (Some sn) → sn.2 = (λ e, (name e, balance e)) <$> out.1).
Proof.
  unfold getBalanceAtDate. destruct date as [d|]; [|done].
  destruct (parse_date strptime d format) as [date|]; [|done].
  destruct ledgerFile as [|headers data]; [done|].
  destruct (_ || _); [done|]. cbn zeta. split.
  - apply replay_untouched.
  - intros sn Hsn. by rewrite (replay_snapshot _ _ _ _ _ _ Hsn).
Qed.

(** When every record is dated on or before the cutoff and every transfer
    succeeds, the loop ends with the file and nothing is returned. *)
Lemma getBalanceAtDate_exhausted (entities : list Entity) (headers : row)
    (rows : list row) (ts : list Transaction) (d format : string) (date : Z) :
  strptime d format = Some date →
  Forall2 (λ r t, record_of headers r = Return t ∧ tx_date t ≤ date) rows ts →
  str_in "sender" headers = true → str_in "receiver" headers = true →
  str_in "date" headers = true → str_in "amount" headers = true →
  getBalanceAtDate entities (headers :: rows) (Some d) format =
  match apply_in_order entities ts with
  | (entities', Raise e) => (entities', Raise e)
  | (entities', Return _) => (entities', Return None)
  end.
Proof.
  intros Hd Hrows H1 H2 H3 H4. unfold getBalanceAtDate, parse_date.
  rewrite Hd, H1, H2, H3, H4. cbn [negb orb].
  rewrite <- (app_nil_r rows), (replay_app _ _ _ _ [] _ _ Hrows).
  by destruct (apply_in_order entities ts) as [entities' [[]|e]].
Qed.

(** ** Claims on the replay *)

(** C3: the records are applied in the order of the stream as long as
    their dates are on or before the cutoff; the first record dated after
    the cutoff ends the replay with the snapshot of the balances reached.
    The rows after that record do not count, whatever their dates. *)
Theorem getBalanceAtDate_stream_order (entities : list Entity) (headers : row)
    (pre : list row) (r : row) (post : list row) (ts : list Transaction)
    (t : Transaction) (d format : string) (date : Z) :
  strptime d format = Some date →
  Forall2 (λ r t, record_of headers r = Return t ∧ tx_date t ≤ date) pre ts →
  record_of headers r = Return t → date < tx_date t →
  getBalanceAtDate entities (headers :: pre ++ r :: post) (Some d) format =
  match apply_in_order entities ts with
  | (entities', Raise e) => (entities', Raise e)
  | (entities', Return _) =>
    (entities', Return (Some (snapshot date format entities')))
  end.
Proof.
  intros Hd Hpre Ht Hgt. unfold getBalanceAtDate, parse_date.
  rewrite Hd, (record_of_headers _ _ _ Ht).
  rewrite (replay_app _ _ _ _ _ _ _ Hpre).
  destruct (apply_in_order entities ts) as [entities' [[]|e]]; [|done].
  by apply replay_cons_gt with t.
Qed.

(** C7, amended: for a name that no entity of the list has, the lookup
    returns [None] and raises nothing.  In the replay, take a record whose
    sender has such a name, or whose receiver has such a name while its
    sender is found and allowed to pay.  If the record is dated on or
    before the cutoff, the replay fails on it with [AttributeError] and
    changes no balance; if it is dated after the cutoff, the replay does
    not fail: it returns the snapshot. *)
Theorem getEntityByName_unregistered (entities : list Entity) (n : string)
    (headers r : row) (rest : list row) (t : Transaction) (date : Z)
    (format : string) :
  (∀ e, e ∈ entities → lower (name e) ≠ lower n) →
  record_of headers r = Return t →
  tx_sender t = n ∨
  (tx_receiver t = n ∧ ∃ s e, getEntityByName entities (tx_sender t) = Some s
     ∧ entities !! s = Some e ∧ type e ∈ allowedToPay) →
  getEntityByName entities n = None ∧
  replay headers date format entities (r :: rest) =
  if (tx_date t <=? date)%Z then (entities, Raise AttributeError)
  else (entities, Return (Some (snapshot date format entities))).
Proof.
  intros Hn Ht Hparty. apply getEntityByName_None in Hn. split; [done|].
  destruct (Z.leb_spec (tx_date t) date) as [Hle|Hgt].
  - rewrite (replay_cons_le _ _ _ _ _ _ _ Ht Hle). unfold transfer_record.
    destruct Hparty as [<-|(<- & s & e & Hs & He & Hty)].
    + by rewrite Hn.
    + rewrite Hs, Hn.
      by rewrite (pay_no_receiver_allowed entities s e (tx_amount t) He Hty).
  - by apply replay_cons_gt with t.
Qed.

(** C10: when an entity of the list has an earlier entity with the same
    name up to case, the lookup of that name, in any spelling, returns the
    first entity of the list with the name, which comes before it; whatever
    the lookup returns is the first entity with the looked-up name.  So the
    later duplicate is never given by the lookup, the replay leaves it as it
    was, whatever the outcome, and a returned snapshot has one entry for
    each entity of the list, the one of the duplicate holding its name and
    its initial balance. *)
Theorem later_duplicate_untouched (entities : list Entity)
    (ledgerFile : list row) (date : option string) (format : string)
    (j : nat) (e : Entity) :
  entities !! j = Some e → later_duplicate entities j →
  (∃ i ei, (i < j)%nat ∧ entities !! i = Some ei
     ∧ lower (name ei) = lower (name e)
     ∧ (∀ k ek, (k < i)%nat → entities !! k = Some ek →
          lower (name ek) ≠ lower (name e))
     ∧ ∀ n, lower n = lower (name e) → getEntityByName entities n = Some i) ∧
  (∀ n i, getEntityByName entities n = Some i →
     (∃ ei, entities !! i = Some ei ∧ lower (name ei) = lower n) ∧
     ∀ k ek, (k < i)%nat → entities !! k = Some ek →
       lower (name ek) ≠ lower n) ∧
  (∀ n, getEntityByName entities n ≠ Some j) ∧
  let out := getBalanceAtDate entities ledgerFile date format in
  out.1 !! j = Some e ∧
  ∀ key l, out.2 = Return (Some (key, l)) →
    List.length l = List.length out.1 ∧ l !! j = Some (name e, balance e).
Proof.
  intros He (i & ei & ej & Hij & Hi & Hj & Hlow).
  assert (ej = e) as -> by congruence.
  assert (∀ n, getEntityByName entities n ≠ Some j) as Hnever.
  { intros n [(e' & He' & Hn) Hfirst]%getEntityByName_Some.
    apply (Hfirst i ei Hij Hi). congruence. }
  split.
  { destruct (getEntityByName entities (name e)) as [i1|] eqn:E.
    - pose proof E as [(e1 & He1 & Hn1) Hmin]%getEntityByName_Some.
      exists i1, e1. split; [|split; [done|split; [done|split; [done|]]]].
      + destruct (decide (i1 ≤ i)%nat) as [?|Hgt]; [lia|].
        exfalso. apply (Hmin i ei); [lia|done|done].
      + intros n Hn. rewrite <- E. by apply getEntityByName_lower.
    - exfalso. rewrite getEntityByName_None in E. apply (E e); [|done].
      by apply list_elem_of_lookup_2 with j. }
  split; [intros n k; apply getEntityByName_Some|]. split; [done|].
  destruct (getBalanceAtDate_untouched entities ledgerFile date format)
    as [Hu Hsn].
  cbn zeta. rewrite (Hu j Hnever). split; [done|].
  intros key l Hout. specialize (Hsn _ Hout). simpl in Hsn. subst l.
  rewrite length_fmap, list_lookup_fmap, (Hu j Hnever), He. done.
Qed.

(** ** Claims on the entity list *)



End Replay.

(** ** The claims on concrete ledgers *)

Lemma getBalanceAtDate_stream_order_witness :
  getBalanceAtDate iso_strptime iso_strftime whole_float [alice; carol]
    (ledger_headers :: [row_day1] ++ row_day5 :: [row_day2])
    (Some "2021-01-02") fmt
  = ([set_balance 70 alice; set_balance 50 carol],
     Return (Some ("2021-01-02", [("Alice", 70); ("Carol", 50)]))).
Proof.
  apply (getBalanceAtDate_stream_order iso_strptime iso_strftime whole_float
           [alice; carol] ledger_headers [row_day1] row_day5 [row_day2]
           [mkTransaction 20210101 "Alice" "Carol" 30]
           (mkTransaction 20210105 "Alice" "Carol" 5)
           "2021-01-02" fmt 20210102).
  - reflexivity.
  - constructor; [|constructor]. split; [reflexivity|]. simpl. lia.
  - reflexivity.
  - simpl. lia.
Defined.

(** C1, at an input where the code departs from it: the only record is
    dated on the cutoff; it is applied, the file ends, and the call returns
    [None] instead of the snapshot of 70 and 50. *)
Theorem getBalanceAtDate_end_of_file :
  getBalanceAtDate iso_strptime iso_strftime whole_float [alice; carol]
    ledger_one_day (Some "2021-01-01") fmt
  = ([set_balance 70 alice; set_balance 50 carol], Return None).
Proof. vm_compute. reflexivity. Qed.

(** C9, at an input where the code departs from it: the second call with
    the same date applies the transfer of the first day once more, on top of
    the balances that the first call left. *)
Theorem getBalanceAtDate_twice :
  let first := getBalanceAtDate iso_strptime iso_strftime whole_float
                 [alice; carol] ledger_alice_carol (Some "2021-01-01") fmt in
  let second := getBalanceAtDate iso_strptime iso_strftime whole_float
                  first.1 ledger_alice_carol (Some "2021-01-01") fmt in
  first.2 = Return (Some ("2021-01-01", [("Alice", 70); ("Carol", 50)])) ∧
  second.2 = Return (Some ("2021-01-01", [("Alice", 40); ("Carol", 80)])) ∧
  first.1 = [set_balance 70 alice; set_balance 50 carol] ∧
  second.1 = [set_balance 40 alice; set_balance 80 carol].
Proof. vm_compute. repeat split; reflexivity. Qed.

(** C7 as stated fails: the lookup of a name that no entity has returns
    [None], and a replay that meets a record of two such names, dated after
    the cutoff, returns the snapshot. *)
Lemma unregistered_names_no_error :
  getEntityByName [alice; bob] "Dave" = None ∧
  getBalanceAtDate iso_strptime iso_strftime whole_float [alice; bob]
    [ledger_headers; row_strangers] (Some "2021-01-01") fmt
  = ([alice; bob], Return (Some ("2021-01-01", [("Alice", 100); ("Bob", 50)]))).
Proof. split; vm_compute; reflexivity. Qed.

Lemma getEntityByName_unregistered_witness :
  getEntityByName [alice; bob] "Dave" = None ∧
  replay iso_strptime iso_strftime whole_float ledger_headers 20210105 fmt
    [alice; bob] [row_strangers]
  = ([alice; bob], Raise AttributeError).
Proof.
  apply (getEntityByName_unregistered iso_strptime iso_strftime whole_float
           [alice; bob] "Dave" ledger_headers row_strangers []
           (mkTransaction 20210105 "Dave" "Erin" 5) 20210105 fmt).
  - intros e He. apply elem_of_cons in He as [->|He]; [vm_compute; discriminate|].
    apply elem_of_cons in He as [->|He]; [vm_compute; discriminate|].
    by apply elem_of_nil in He.
  - reflexivity.
  - left. reflexivity.
Defined.



Lemma later_duplicate_untouched_witness :
  getEntityByName parsed_two_days "BOB" = Some 1%nat ∧
  getEntityByName parsed_two_days "bob" = Some 1%nat ∧
  getEntityByName parsed_two_days "BOB" ≠ Some 2%nat ∧
  (getBalanceAtDate iso_strptime iso_strftime whole_float parsed_two_days
     ledger_two_days (Some "2021-01-01") fmt).1 !! 2%nat
  = Some (mkEntity "Bob" None 0) ∧
  ∀ key l,
    (getBalanceAtDate iso_strptime iso_strftime whole_float parsed_two_days
       ledger_two_days (Some "2021-01-01") fmt).2 = Return (Some (key, l)) →
    List.length l = 4%nat ∧ l !! 2%nat = Some ("Bob", 0).
Proof.
  destruct (later_duplicate_untouched iso_strptime iso_strftime whole_float
              parsed_two_days ledger_two_days (Some "2021-01-01") fmt 2
              (mkEntity "Bob" None 0))
    as ((i & ei & Hlt & Hi & Hlow & Hmin & Hall) & _ & Hnever & Hj & Hsn).
  - reflexivity.
  - exists 1%nat, (mkEntity "Bob" None 0), (mkEntity "Bob" None 0).
    repeat split. lia.
  - assert (i = 1%nat) as ->.
    { destruct i as [|[|i]]; [|reflexivity|lia].
      exfalso. vm_compute in Hi. injection Hi as <-.
      vm_compute in Hlow. discriminate. }
    split; [by apply Hall|]. split; [by apply Hall|].
    split; [apply Hnever|]. split; [exact Hj|].
    intros key l Hout. destruct (Hsn key l Hout) as [Hlen Hl]. split; [|exact Hl].
    rewrite Hlen. vm_compute. reflexivity.
Defined.

(** * Further properties of the code *)

(** ** Payments *)

Lemma fmap_alter_same {B : Type} (g : Entity → B) (f : Entity → Entity)
    (st : list Entity) (i : nat) :
  (∀ e, g (f e) = g e) → g <$> alter f i st = g <$> st.
Proof.
  intros Hf. apply list_eq. intros j. rewrite !list_lookup_fmap.
  destruct (decide (i = j)) as [->|Hne].
  - rewrite list_lookup_alter_eq. destruct (st !! j); simpl; [|done].
    by rewrite Hf.
  - by rewrite list_lookup_alter_ne.
Qed.

Lemma pay_types (st : list Entity) (self : nat) (receiver : option nat) (amount : Z) :
  type <$> (pay st self receiver amount).1 = type <$> st.
Proof.
  unfold pay. destruct (st !! self) as [e|]; [|done].
  destruct (py_in _ _).
  - destruct receiver as [r|]; [|done]. destruct (st !! r); [|done]. simpl.
    rewrite !fmap_alter_same; done.
  - by destruct (type e).
Qed.

(** X1: a payment that fails has changed no entity: whatever the exception,
    the list is the one the payment started from. *)
Theorem pay_failure_changes_nothing (st st' : list Entity) (self : nat)
    (receiver : option nat) (amount : Z) (err : exn) :
  pay st self receiver amount = (st', Raise err) → st' = st.
Proof. apply pay_Raise. Qed.

Lemma pay_failure_changes_nothing_witness : [alice; bob] = [alice; bob].
Proof.
  apply (pay_failure_changes_nothing [alice; bob] [alice; bob] 1 (Some 0%nat) 10
           (Exception (not_allowed_msg "company"))).
  reflexivity.
Defined.

(** X2: a payment between two different entities by a sender that is
    allowed to pay succeeds for every amount and every balance (there is no
    check of the sign of the amount nor of an overdraft).  It returns the
    amount, takes it from the sender's balance, adds it to the receiver's
    balance and leaves every other entity as it was. *)
Theorem pay_transfer (st : list Entity) (self r : nat) (es er : Entity)
    (amount : Z) :
  st !! self = Some es → st !! r = Some er → self ≠ r →
  type es ∈ allowedToPay →
  ∃ st', pay st self (Some r) amount = (st', Return amount) ∧
    st' !! self = Some (mkEntity (name es) (type es) (balance es - amount)) ∧
    st' !! r = Some (mkEntity (name er) (type er) (balance er + amount)) ∧
    (∀ j, j ≠ self → j ≠ r → st' !! j = st !! j).
Proof.
  intros Hs Hr Hne Hty.
  destruct (pay_distinct st self r es er amount Hs Hr Hne Hty)
    as (st' & Hp & Hs' & Hr' & _).
  exists st'. repeat split; try done.
  intros j Hjs Hjr.
  pose proof (pay_other st self (Some r) amount j Hjs) as Ho.
  rewrite Hp in Ho. apply Ho. congruence.
Qed.

Lemma pay_transfer_witness :
  ∃ st', pay [alice; bob] 0 (Some 1%nat) 130 = (st', Return 130) ∧
    st' !! 0%nat = Some (mkEntity "Alice" (Some "person") (-30)) ∧
    st' !! 1%nat = Some (mkEntity "Bob" (Some "company") 180) ∧
    (∀ j, j ≠ 0%nat → j ≠ 1%nat → st' !! j = [alice; bob] !! j).
Proof.
  apply (pay_transfer [alice; bob] 0 1 alice bob 130).
  - reflexivity.
  - reflexivity.
  - lia.
  - apply (bool_decide_unpack _). vm_compute. reflexivity.
Defined.

(** X3: a payment of an entity to itself succeeds and takes the amount from
    its balance: the credit is overwritten by the debited balance.  No other
    entity changes. *)
Theorem pay_to_self (st : list Entity) (self : nat) (e : Entity) (amount : Z) :
  st !! self = Some e → type e ∈ allowedToPay →
  ∃ st', pay st self (Some self) amount = (st', Return amount) ∧
    st' !! self = Some (mkEntity (name e) (type e) (balance e - amount)) ∧
    (∀ j, j ≠ self → st' !! j = st !! j).
Proof.
  intros Hs Hty.
  destruct (pay_self st self e amount Hs Hty) as (st' & Hp & Hs' & _).
  exists st'. repeat split; try done.
  intros j Hj.
  pose proof (pay_other st self (Some self) amount j Hj) as Ho.
  rewrite Hp in Ho. apply Ho. congruence.
Qed.

Lemma pay_to_self_witness :
  ∃ st', pay [alice; bob] 0 (Some 0%nat) 30 = (st', Return 30) ∧
    st' !! 0%nat = Some (mkEntity "Alice" (Some "person") 70) ∧
    (∀ j, j ≠ 0%nat → st' !! j = [alice; bob] !! j).
Proof.
  apply (pay_to_self [alice; bob] 0 alice 30).
  - reflexivity.
  - apply (bool_decide_unpack _). vm_compute. reflexivity.
Defined.

(** X4: a payment, failed or not, changes balances only: the names and the
    types of the entities, in their order, are kept, and so every lookup by
    name gives after the payment what it gave before. *)
Theorem pay_keeps_names_and_types (st : list Entity) (self : nat)
    (receiver : option nat) (amount : Z) :
  name <$> (pay st self receiver amount).1 = name <$> st ∧
  type <$> (pay st self receiver amount).1 = type <$> st ∧
  ∀ n, getEntityByName (pay st self receiver amount).1 n = getEntityByName st n.
Proof.
  split; [apply pay_names|]. split; [apply pay_types|].
  intros n. apply getEntityByName_names, pay_names.
Qed.

(** ** Lookup by name *)

(** X6: what the lookup returns.  A position returned holds an entity with
    the looked-up name, up to case, and no earlier position does; [None] is
    returned only when no entity of the list has the name, up to case. *)
Theorem getEntityByName_spec (entities : list Entity) (n : string) :
  match getEntityByName entities n with
  | Some i =>
    (∃ e, entities !! i = Some e ∧ lower (name e) = lower n) ∧
    (∀ j e, (j < i)%nat → entities !! j = Some e → lower (name e) ≠ lower n)
  | None => ∀ e, e ∈ entities → lower (name e) ≠ lower n
  end.
Proof.
  destruct (getEntityByName entities n) as [i|] eqn:E.
  - by apply getEntityByName_Some.
  - by apply getEntityByName_None.
Qed.

(** ** The replay *)

Lemma pay_Return_inv (st st' : list Entity) (self : nat) (receiver : option nat)
    (amount x : Z) :
  pay st self receiver amount = (st', Return x) →
  ∃ es r er, st !! self = Some es ∧ type es ∈ allowedToPay ∧
    receiver = Some r ∧ st !! r = Some er.
Proof.
  unfold pay, py_in. destruct (st !! self) as [es|] eqn:Es; [|done].
  case_bool_decide as Hty.
  - destruct receiver as [r|]; [|done].
    destruct (st !! r) as [er|] eqn:Er; [|done].
    intros _. by exists es, r, er.
  - by destruct (type es).
Qed.

Lemma transfer_record_balance (entities st1 : list Entity) (t : Transaction)
    (x : Z) (i : nat) (e : Entity) :
  transfer_record entities t = (st1, Return x) →
  entities !! i = Some e → getEntityByName entities (name e) = Some i →
  st1 !! i
  = Some (mkEntity (name e) (type e) (balance_after (name e) (balance e) [t])).
Proof.
  intros Htr Hi Hfirst. unfold transfer_record in Htr.
  destruct (getEntityByName entities (tx_sender t)) as [s|] eqn:Es; [|done].
  destruct (pay_Return_inv _ _ _ _ _ _ Htr) as (es & r & er & Hs & Hty & Er & Hr).
  rewrite Er in Htr. cbn [balance_after].
  case_bool_decide as Hsend; [|case_bool_decide as Hrecv].
  - assert (s = i) as -> by
      (rewrite (getEntityByName_lower entities _ (name e)) in Es by done;
       congruence).
    assert (es = e) as -> by congruence.
    destruct (decide (i = r)) as [<-|Hir].
    + destruct (pay_self entities i e (tx_amount t) Hs Hty) as (st' & Hp & Hs' & _).
      rewrite Htr in Hp. injection Hp as <-. by rewrite Hs'.
    + destruct (pay_distinct entities i r e er (tx_amount t) Hs Hr Hir Hty)
        as (st' & Hp & Hs' & _).
      rewrite Htr in Hp. injection Hp as <-. by rewrite Hs'.
  - assert (r = i) as -> by
      (rewrite (getEntityByName_lower entities _ (name e)) in Er by done;
       congruence).
    assert (er = e) as -> by congruence.
    assert (s ≠ i) as Hsi.
    { intros ->. apply getEntityByName_Some in Es as [(e' & He' & Hn) _].
      apply Hsend. congruence. }
    destruct (pay_distinct entities s i es e (tx_amount t) Hs Hr Hsi Hty)
      as (st' & Hp & _ & Hr' & _).
    rewrite Htr in Hp. injection Hp as <-. by rewrite Hr'.
  - assert (i ≠ s) as His.
    { intros ->. apply getEntityByName_Some in Es as [(e' & He' & Hn) _].
      apply Hsend. congruence. }
    assert (i ≠ r) as Hir.
    { intros ->. apply getEntityByName_Some in Er as [(e' & He' & Hn) _].
      apply Hrecv. congruence. }
    pose proof (pay_other entities s (Some r) (tx_amount t) i His) as Ho.
    rewrite Htr in Ho. simpl in Ho. rewrite Ho, Hi by congruence.
    by destruct e.
Qed.

Lemma apply_in_order_balance (ts : list Transaction) (entities st' : list Entity)
    (i : nat) (e : Entity) :
  apply_in_order entities ts = (st', Return ()) →
  entities !! i = Some e → getEntityByName entities (name e) = Some i →
  st' !! i
  = Some (mkEntity (name e) (type e) (balance_after (name e) (balance e) ts)).
Proof.
  revert entities e. induction ts as [|t ts IH]; intros entities e Hap Hi Hfirst.
  - injection Hap as <-. rewrite Hi. by destruct e.
  - cbn [apply_in_order] in Hap.
    destruct (transfer_record entities t) as [st1 [x|err]] eqn:Htr; [|done].
    pose proof (transfer_record_balance _ _ _ _ _ _ Htr Hi Hfirst) as H1.
    pose proof (transfer_record_untouched entities t) as [Hn _].
    rewrite Htr in Hn. simpl in Hn.
    rewrite (IH st1 _ Hap H1); simpl; [done|].
    by rewrite (getEntityByName_names _ _ _ Hn).
Qed.

Section Replay_more.
Variable strptime : string → string → option Z.
Variable strftime : Z → string → string.
Variable float : string → option Z.

Local Abbreviation record_of := (record_of strptime float).
Local Abbreviation read_row := (read_row strptime float).
Local Abbreviation replay := (replay strptime strftime float).
Local Abbreviation snapshot := (snapshot strftime).
Local Abbreviation getBalanceAtDate := (getBalanceAtDate strptime strftime float).

Lemma replay_types (headers : row) (date : Z) (format : string)
    (rows : list row) (entities : list Entity) :
  type <$> (replay headers date format entities rows).1 = type <$> entities.
Proof.
  revert entities. induction rows as [|r rest IH]; intros entities; [done|].
  cbn [replay].
  destruct (read_row entities headers r) as [[[[sender receiver] d] a]|]; [|done].
  destruct (d <=? date)%Z; [|done].
  destruct sender as [s|]; [|done].
  pose proof (pay_types entities s receiver a) as Hty.
  destruct (pay entities s receiver a) as [entities' [?|?]]; [|done].
  simpl in Hty. by rewrite IH.
Qed.

(** The call reduces to the loop, or fails before it with the entities as
    they were. *)
Lemma getBalanceAtDate_cases (entities : list Entity) (ledgerFile : list row)
    (date : option string) (format : string) :
  (getBalanceAtDate entities ledgerFile date format).1 = entities ∨
  ∃ d dt headers data, date = Some d ∧ strptime d format = Some dt ∧
    ledgerFile = headers :: data ∧
    getBalanceAtDate entities ledgerFile date format
    = replay headers dt format entities data.
Proof.
  unfold getBalanceAtDate, parse_date. destruct date as [d|]; [|by left].
  destruct (strptime d format) as [dt|] eqn:Ed; [|by left].
  destruct ledgerFile as [|headers data]; [by left|].
  destruct (_ || _); [by left|]. right. by exists d, dt, headers, data.
Qed.

Lemma getBalanceAtDate_names (entities : list Entity) (ledgerFile : list row)
    (date : option string) (format : string) :
  name <$> (getBalanceAtDate entities ledgerFile date format).1
  = name <$> entities.
Proof.
  destruct (getBalanceAtDate_cases entities ledgerFile date format)
    as [->|(d & dt & headers & data & _ & _ & _ & ->)]; [done|].
  apply replay_untouched.
Qed.

(** X7: a call of [getBalanceAtDate], whatever its outcome, changes balances
    only: the entities keep their number, their order, their names and
    their types, and every lookup by name gives what it gave before. *)
Theorem getBalanceAtDate_keeps_names_and_types (entities : list Entity)
    (ledgerFile : list row) (date : option string) (format : string) :
  name <$> (getBalanceAtDate entities ledgerFile date format).1
  = name <$> entities ∧
  type <$> (getBalanceAtDate entities ledgerFile date format).1
  = type <$> entities ∧
  ∀ n, getEntityByName (getBalanceAtDate entities ledgerFile date format).1 n
       = getEntityByName entities n.
Proof.
  pose proof (getBalanceAtDate_names entities ledgerFile date format) as Hn.
  split; [done|]. split.
  - destruct (getBalanceAtDate_cases entities ledgerFile date format)
      as [->|(d & dt & headers & data & _ & _ & _ & ->)]; [done|].
    apply replay_types.
  - intros n. by apply getEntityByName_names.
Qed.

(** X9: a snapshot that is returned is the snapshot of the entities as the
    call leaves them: its key is the given date, parsed and written again
    in the given format, and it lists every entity, in the order of the
    list, with its name and the balance it has after the call. *)
Theorem getBalanceAtDate_snapshot_consistent (entities : list Entity)
    (ledgerFile : list row) (date : option string) (format : string)
    (st' : list Entity) (key : string) (l : list (string * Z)) :
  getBalanceAtDate entities ledgerFile date format
  = (st', Return (Some (key, l))) →
  (∃ d dt, date = Some d ∧ strptime d format = Some dt
     ∧ key = strftime dt format) ∧
  l = (λ e, (name e, balance e)) <$> st' ∧
  List.length l = List.length entities.
Proof.
  intros H.
  pose proof (getBalanceAtDate_names entities ledgerFile date format) as Hn.
  rewrite H in Hn. simpl in Hn.
  assert (List.length st' = List.length entities) as Hlen.
  { by rewrite <- (length_fmap name st'), Hn, length_fmap. }
  revert H. unfold getBalanceAtDate, parse_date. destruct date as [d|]; [|done].
  destruct (strptime d format) as [dt|] eqn:Ed; [|done].
  destruct ledgerFile as [|headers data]; [done|].
  destruct (_ || _); [done|]. intros H.
  pose proof (replay_snapshot strptime strftime float headers dt format data
                entities (key, l)) as Hsn.
  rewrite H in Hsn. specialize (Hsn eq_refl). injection Hsn as -> ->.
  split; [by exists d, dt|]. split; [done|]. by rewrite length_fmap.
Qed.

(** X10: a failure does not undo what was done.  When the records before
    the failing one were applied, the call raises the exception of the
    failing transfer and leaves the balances as those records made them. *)
Theorem getBalanceAtDate_no_rollback (entities : list Entity) (headers : row)
    (pre : list row) (r : row) (post : list row) (ts : list Transaction)
    (t : Transaction) (d format : string) (date : Z) (st' : list Entity)
    (err : exn) :
  strptime d format = Some date →
  Forall2 (λ r t, record_of headers r = Return t ∧ tx_date t ≤ date) pre ts →
  record_of headers r = Return t → tx_date t ≤ date →
  apply_in_order entities ts = (st', Return ()) →
  (transfer_record st' t).2 = Raise err →
  getBalanceAtDate entities (headers :: pre ++ r :: post) (Some d) format
  = (st', Raise err).
Proof.
  intros Hd Hpre Ht Hle Hts Herr. unfold getBalanceAtDate, parse_date.
  rewrite Hd, (record_of_headers _ _ _ _ _ Ht).
  rewrite (replay_app _ _ _ _ _ _ _ _ _ _ Hpre), Hts.
  rewrite (replay_cons_le _ _ _ _ _ _ _ _ _ _ Ht Hle).
  destruct (transfer_record st' t) as [st'' [x|e]] eqn:E; [done|].
  simpl in Herr. injection Herr as ->. f_equal.
  unfold transfer_record in E.
  destruct (getEntityByName st' (tx_sender t)); [|by injection E as <-].
  by apply pay_Raise in E.
Qed.


(** X12: every field of a row is read and parsed before the date is
    compared with the cutoff.  A row whose amount is not a number stops the
    replay with [ValueError] whatever its date, also when it is dated after
    the cutoff and the amount would not be used; no balance changes. *)
Theorem replay_bad_amount (headers : row) (date : Z) (format : string)
    (entities : list Entity) (r : row) (rest : list row)
    (s c ds a : string) (cd : Z) :
  field headers r "sender" = Return s →
  field headers r "receiver" = Return c →
  field headers r "date" = Return ds →
  strptime ds "%Y-%m-%d" = Some cd →
  field headers r "amount" = Return a →
  float a = None →
  replay headers date format entities (r :: rest) = (entities, Raise ValueError).
Proof.
  intros Hs Hc Hds Hcd Ha Hf. cbn [replay].
  unfold read_row, parse_date, parse_float.
  rewrite Hs. cbn. rewrite Hc. cbn. rewrite Hds. cbn. rewrite Hcd. cbn.
  rewrite Ha. cbn. by rewrite Hf.
Qed.

(** X13: the balances at a later date continue those at an earlier date.
    When the call for the earlier cutoff stops at a record and returns a
    snapshot, the call for a later cutoff does what a call on the balances
    so reached does on the file from that record on. *)
Theorem getBalanceAtDate_later_cutoff (entities : list Entity) (headers : row)
    (pre : list row) (r : row) (post : list row) (ts : list Transaction)
    (t : Transaction) (d1 d2 format : string) (date1 date2 : Z)
    (st' : list Entity) (sn : Snapshot) :
  strptime d1 format = Some date1 → strptime d2 format = Some date2 →
  date1 ≤ date2 →
  Forall2 (λ r t, record_of headers r = Return t ∧ tx_date t ≤ date1) pre ts →
  record_of headers r = Return t → date1 < tx_date t →
  getBalanceAtDate entities (headers :: pre ++ r :: post) (Some d1) format
  = (st', Return (Some sn)) →
  getBalanceAtDate entities (headers :: pre ++ r :: post) (Some d2) format
  = getBalanceAtDate st' (headers :: r :: post) (Some d2) format.
Proof.
  intros Hd1 Hd2 Hle Hpre Ht Hgt. unfold getBalanceAtDate, parse_date.
  rewrite Hd1, Hd2, (record_of_headers _ _ _ _ _ Ht).
  rewrite (replay_app _ _ _ _ _ _ _ _ _ _ Hpre).
  assert (Forall2 (λ r t, record_of headers r = Return t ∧ tx_date t ≤ date2)
            pre ts) as Hpre2.
  { eapply Forall2_impl; [|exact Hpre]. intros ? ? [? ?]. split; [done|lia]. }
  rewrite (replay_app _ _ _ _ _ _ _ _ _ _ Hpre2).
  destruct (apply_in_order entities ts) as [st1 [[]|e]]; [|done].
  rewrite (replay_cons_gt _ _ _ _ _ _ _ _ _ _ Ht Hgt).
  by intros [= -> _].
Qed.

(** X14: a missing column is found before any record is read.  When the
    header row lacks one of [sender], [receiver], [date] and [amount], the
    call raises the exception that names the four columns, whatever rows
    follow, and no balance changes. *)
Theorem getBalanceAtDate_missing_header (entities : list Entity) (headers : row)
    (data : list row) (d format col : string) (date : Z) :
  strptime d format = Some date →
  col ∈ ["sender"; "receiver"; "date"; "amount"] → col ∉ headers →
  getBalanceAtDate entities (headers :: data) (Some d) format
  = (entities, Raise (Exception headers_msg)).
Proof.
  intros Hd Hcol Hmiss. unfold getBalanceAtDate, parse_date. rewrite Hd.
  assert (str_in col headers = false) as Hf by by apply bool_decide_eq_false.
  repeat (apply elem_of_cons in Hcol as [->|Hcol];
          [rewrite Hf; cbn [negb orb];
           repeat (destruct (str_in _ _); cbn [negb orb]); done|]).
  by apply elem_of_nil in Hcol.
Qed.

(** X15: the balance that a snapshot shows for an entity is its starting
    balance taken through the applied records in their order.  For an entity
    that is the first of the list with its name, each applied record that
    names it as sender takes its amount from the balance (also when it names
    it as receiver too), each other applied record that names it as receiver
    adds its amount, and the other records leave the balance as it is. *)
Theorem getBalanceAtDate_balance (entities : list Entity) (headers : row)
    (pre : list row) (r : row) (post : list row) (ts : list Transaction)
    (t : Transaction) (d format : string) (date : Z) (st' : list Entity)
    (key : string) (l : list (string * Z)) (i : nat) (e : Entity) :
  strptime d format = Some date →
  Forall2 (λ r t, record_of headers r = Return t ∧ tx_date t ≤ date) pre ts →
  record_of headers r = Return t → date < tx_date t →
  entities !! i = Some e → getEntityByName entities (name e) = Some i →
  getBalanceAtDate entities (headers :: pre ++ r :: post) (Some d) format
  = (st', Return (Some (key, l))) →
  l !! i = Some (name e, balance_after (name e) (balance e) ts).
Proof.
  intros Hd Hpre Ht Hgt Hi Hfirst. unfold getBalanceAtDate, parse_date.
  rewrite Hd, (record_of_headers _ _ _ _ _ Ht).
  rewrite (replay_app _ _ _ _ _ _ _ _ _ _ Hpre).
  destruct (apply_in_order entities ts) as [st1 [[]|err]] eqn:Hap; [|done].
  rewrite (replay_cons_gt _ _ _ _ _ _ _ _ _ _ Ht Hgt).
  intros [= <- _ <-].
  rewrite list_lookup_fmap, (apply_in_order_balance _ _ _ _ _ Hap Hi Hfirst).
  done.
Qed.

End Replay_more.

(** ** Parsing the entities *)

Lemma index_missing (l : list string) (x : string) :
  x ∉ l → index l x = Raise ValueError.
Proof.
  induction l as [|y rest IH]; intros Hx; simpl; [done|].
  apply not_elem_of_cons in Hx as [Hne Hrest].
  rewrite bool_decide_eq_false_2 by congruence. by rewrite IH.
Qed.

Lemma parse_transaction_rows_shape (headers : row) (rows : list row)
    (acc l : list Entity) :
  parse_transaction_rows headers rows acc = Return l →
  ∃ l', l = (acc ++ l')%list ∧
    Forall (λ e, type e = None ∧ balance e = 0) l' ∧
    List.length l' = (2 * List.length rows)%nat.
Proof.
  revert acc. induction rows as [|r rest IH]; intros acc; cbn [parse_transaction_rows].
  - intros [= <-]. exists []. by rewrite app_nil_r.
  - destruct (field headers r "sender") as [s|]; [|done]. cbn.
    destruct (field headers r "receiver") as [c|]; [|done]. cbn.
    intros (l' & -> & Hl' & Hlen)%IH.
    exists (mkEntity s None 0 :: mkEntity c None 0 :: l'). split.
    + by rewrite <- !app_assoc.
    + split; [by repeat constructor|]. simpl. lia.
Qed.

Lemma total_zero (l : list Entity) :
  Forall (λ e, type e = None ∧ balance e = 0) l → total l = 0.
Proof.
  induction 1 as [|e l [_ Hb] _ IH]; [done|].
  unfold total in *. cbn. lia.
Qed.

Section Parsing.
Variable float : string → option Z.

Local Abbreviation parseEntities := (parseEntities float).
Local Abbreviation parse_entity_rows := (parse_entity_rows float).

Lemma parse_entity_rows_app (headers : row) (rows : list row)
    (qs : list (string * string * Z)) (acc : list Entity) :
  Forall2 (λ r q, field headers r "name" = Return q.1.1
                  ∧ field headers r "type" = Return q.1.2
                  ∧ ∃ b, field headers r "startingBalance" = Return b
                         ∧ float b = Some q.2) rows qs →
  parse_entity_rows headers rows acc =
  Return (acc ++ ((λ q, mkEntity q.1.1 (Some q.1.2) q.2) <$> qs))%list.
Proof.
  intros H. revert acc.
  induction H as [|r q rows qs (Hn & Ht & b & Hb & Hf) _ IH]; intros acc.
  - cbn. by rewrite app_nil_r.
  - cbn [parse_entity_rows]. rewrite Hn. cbn. rewrite Ht. cbn. rewrite Hb. cbn.
    unfold parse_float. rewrite Hf. cbn. rewrite IH, <- app_assoc. done.
Qed.

Lemma parse_entity_rows_types (headers : row) (rows : list row)
    (acc l : list Entity) :
  parse_entity_rows headers rows acc = Return l →
  Forall (λ e, is_Some (type e)) acc → Forall (λ e, is_Some (type e)) l.
Proof.
  revert acc. induction rows as [|r rest IH]; intros acc; cbn [parse_entity_rows].
  - by intros [= <-].
  - destruct (field headers r "name") as [n|]; [|done]. cbn.
    destruct (field headers r "type") as [t|]; [|done]. cbn.
    destruct (field headers r "startingBalance") as [b|]; [|done]. cbn.
    destruct (parse_float float b) as [bal|]; [|done]. cbn.
    intros Hl Hacc. apply (IH _ Hl).
    apply Forall_app. split; [done|]. by repeat constructor.
Qed.

(** X16: from an entities file whose rows hold a name, a type and a
    starting balance that is a number, the entity list holds one entity for
    each row, in the order of the file, with the name, the type and the
    balance of the row. *)
Theorem parseEntities_entities_file (headers : row) (data : list row)
    (qs : list (string * string * Z)) (transactionsFile : option (list row)) :
  Forall2 (λ r q, field headers r "name" = Return q.1.1
                  ∧ field headers r "type" = Return q.1.2
                  ∧ ∃ b, field headers r "startingBalance" = Return b
                         ∧ float b = Some q.2) data qs →
  parseEntities (Some (headers :: data)) transactionsFile
  = Return ((λ q, mkEntity q.1.1 (Some q.1.2) q.2) <$> qs).
Proof.
  intros H. unfold parseEntities.
  by rewrite (parse_entity_rows_app _ _ _ _ H).
Qed.

(** X17: the type of an entity read from an entities file is the text of
    its [type] column, never [None]: such an entity is allowed to pay
    exactly when that text is [person].  A blank type does not allow it. *)
Theorem parseEntities_file_payers (entitiesFile : list row)
    (transactionsFile : option (list row)) (l : list Entity) :
  parseEntities (Some entitiesFile) transactionsFile = Return l →
  Forall (λ e, is_Some (type e)
               ∧ (type e ∈ allowedToPay ↔ type e = Some "person")) l.
Proof.
  intros H.
  assert (Forall (λ e, is_Some (type e)) l) as Hty.
  { unfold parseEntities in H. destruct entitiesFile as [|headers data].
    - injection H as <-. constructor.
    - by apply (parse_entity_rows_types _ _ _ _ H). }
  eapply Forall_impl; [|exact Hty]. intros e [t Ht]. split; [by exists t|].
  rewrite Ht. unfold allowedToPay. split.
  - intros [->|Hin%elem_of_cons]%elem_of_cons; [done|].
    destruct Hin as [?|Hin]; [done|]. by apply elem_of_nil in Hin.
  - intros ->. left.
Qed.

(** X18: whenever the entity list is built from a transactions file, it
    holds two entities for each data row; every one has no type, so it is
    allowed to pay, and a balance of 0, so the total is 0. *)
Theorem parseEntities_transactions_shape (headers : row) (data : list row)
    (l : list Entity) :
  parseEntities None (Some (headers :: data)) = Return l →
  List.length l = (2 * List.length data)%nat ∧
  Forall (λ e, type e = None ∧ balance e = 0 ∧ type e ∈ allowedToPay) l ∧
  total l = 0.
Proof.
  unfold parseEntities.
  intros (l' & -> & Hl' & Hlen)%parse_transaction_rows_shape.
  simpl. split; [done|]. split; [|by apply total_zero].
  eapply Forall_impl; [|exact Hl']. intros e [Ht Hb]. repeat split; try done.
  rewrite Ht. unfold allowedToPay. right. left.
Qed.

(** X19: the header row of a transactions file is not checked when the
    entities are built.  A file with a header row only gives the empty list
    whatever the headers; with no [sender] column, the first data row
    raises [ValueError]. *)
Theorem parseEntities_no_sender_column (headers r : row) (rest : list row) :
  "sender" ∉ headers →
  parseEntities None (Some [headers]) = Return [] ∧
  parseEntities None (Some (headers :: r :: rest)) = Raise ValueError.
Proof.
  intros Hmiss. split; [done|].
  unfold parseEntities. cbn [parse_transaction_rows]. unfold field.
  by rewrite (index_missing _ _ Hmiss).
Qed.

End Parsing.

(** ** The ledger object: parsing a file, then asking for balances *)

Lemma pay_succeeds (st : list Entity) (self r : nat) (es er : Entity) (amount : Z) :
  st !! self = Some es → type es ∈ allowedToPay → st !! r = Some er →
  ∃ st', pay st self (Some r) amount = (st', Return amount).
Proof.
  intros Hs Hty Hr. unfold pay, py_in. rewrite Hs, Hr.
  rewrite bool_decide_eq_true_2 by done. by eexists.
Qed.

Lemma getEntityByName_known (st : list Entity) (n : string) :
  n ∈ name <$> st → ∃ i e, getEntityByName st n = Some i ∧ st !! i = Some e.
Proof.
  intros (e & -> & He)%list_elem_of_fmap.
  destruct (getEntityByName st (name e)) as [i|] eqn:E.
  - pose proof E as [(e' & He' & _) _]%getEntityByName_Some. by exists i, e'.
  - exfalso. rewrite getEntityByName_None in E. by apply (E e).
Qed.

Lemma parse_transaction_rows_known (headers : row) (rows : list row)
    (ps : list (string * string)) (acc : list Entity) :
  Forall2 (λ r p, field headers r "sender" = Return p.1
                  ∧ field headers r "receiver" = Return p.2) rows ps →
  ∃ l', parse_transaction_rows headers rows acc = Return (acc ++ l')%list ∧
    Forall (λ e, type e = None) l' ∧
    Forall (λ p, p.1 ∈ name <$> l' ∧ p.2 ∈ name <$> l') ps.
Proof.
  intros H. revert acc.
  induction H as [|r p rows ps [Hs Hc] _ IH]; intros acc.
  - exists []. by rewrite app_nil_r.
  - cbn [parse_transaction_rows]. rewrite Hs. cbn. rewrite Hc. cbn.
    destruct (IH ((acc ++ [mkEntity p.1 None 0]) ++ [mkEntity p.2 None 0])%list)
      as (l' & -> & Hty & Hkn).
    exists (mkEntity p.1 None 0 :: mkEntity p.2 None 0 :: l'). split.
    + by rewrite <- !app_assoc.
    + split; [by repeat constructor|]. constructor.
      * split; cbn; [left|right; left].
      * eapply Forall_impl; [|exact Hkn]. intros q [H1 H2]. cbn.
        split; by do 2 right.
Qed.

Section Ledger_object.
Variable fs : string → option (list row).
Variable strptime : string → string → option Z.
Variable strftime : Z → string → string.
Variable float : string → option Z.
Variable capitalize : string → string.
Variable format_2f : Z → string.

Local Abbreviation record_of := (record_of strptime float).
Local Abbreviation replay := (replay strptime strftime float).
Local Abbreviation getBalanceAtDate := (getBalanceAtDate strptime strftime float).
Local Abbreviation parseLedger := (parseLedger fs float).
Local Abbreviation Ledger_getBalanceAtDate :=
  (Ledger_getBalanceAtDate fs strptime strftime float).
Local Abbreviation printBalanceAtDate :=
  (printBalanceAtDate fs strptime strftime float capitalize format_2f).

Lemma record_of_parties (headers r : row) (t : Transaction) :
  record_of headers r = Return t →
  field headers r "sender" = Return (tx_sender t) ∧
  field headers r "receiver" = Return (tx_receiver t).
Proof.
  unfold record_of.
  destruct (field headers r "sender"); [|done].
  destruct (field headers r "receiver"); [|done].
  destruct (field headers r "date"); [|done]. cbn.
  destruct (parse_date _ _ _); [|done]. cbn.
  destruct (field headers r "amount"); [|done]. cbn.
  destruct (parse_float _ _); [|done]. cbn. by intros [= <-].
Qed.

(** When every name of the records is the name of an entity and every
    entity is allowed to pay, no record makes the loop fail. *)
Lemma replay_no_failure (headers : row) (date : Z) (format : string)
    (rows : list row) (ts : list Transaction) (st : list Entity) :
  Forall2 (λ r t, record_of headers r = Return t) rows ts →
  Forall (λ t, tx_sender t ∈ name <$> st ∧ tx_receiver t ∈ name <$> st) ts →
  Forall (λ ty, ty ∈ allowedToPay) (type <$> st) →
  ∃ st' res, replay headers date format st rows = (st', Return res).
Proof.
  intros H. revert st.
  induction H as [|r t rows ts Ht _ IH]; intros st Hkn Hty; [by eexists _, _|].
  apply Forall_cons_1 in Hkn as [[Hs Hc] Hkn].
  cbn [replay]. rewrite read_row_record_of, Ht. cbn.
  destruct (tx_date t <=? date)%Z; [|by eexists _, _].
  destruct (getEntityByName_known _ _ Hs) as (s & es & -> & Hes).
  destruct (getEntityByName_known _ _ Hc) as (c & ec & -> & Hec).
  assert (type es ∈ allowedToPay) as Htes.
  { rewrite Forall_forall in Hty. apply Hty. apply list_elem_of_In.
    apply list_elem_of_fmap. exists es. split; [done|].
    by apply list_elem_of_lookup_2 with s. }
  destruct (pay_succeeds st s c es ec (tx_amount t) Hes Htes Hec) as [st1 Hp].
  pose proof (pay_names st s (Some c) (tx_amount t)) as Hn.
  pose proof (pay_types st s (Some c) (tx_amount t)) as Hy.
  rewrite Hp in Hn, Hy |- *. simpl in Hn, Hy.
  apply IH; by rewrite ?Hn, ?Hy.
Qed.

(** Parsing a well-formed transactions file, then replaying it. *)
Lemma parse_then_replay (self : Ledger) (f : string) (headers r0 : row)
    (rest : list row) (ts : list Transaction) (d format : string) (date : Z) :
  fs f = Some (headers :: r0 :: rest) →
  Forall2 (λ r t, record_of headers r = Return t) (r0 :: rest) ts →
  strptime d format = Some date →
  ∃ ents ents' res,
    parseLedger self (Some f) = (mkLedger (Some ents) (Some f), Done ()) ∧
    getBalanceAtDate ents (headers :: r0 :: rest) (Some d) format
    = (ents', Return res) ∧
    replay headers date format ents (r0 :: rest) = (ents', Return res).
Proof.
  intros Hfs Hrows Hd.
  assert (Forall2 (λ r p, field headers r "sender" = Return p.1
                          ∧ field headers r "receiver" = Return p.2)
            (r0 :: rest) ((λ t, (tx_sender t, tx_receiver t)) <$> ts)) as Hps.
  { apply Forall2_fmap_r. eapply Forall2_impl; [|exact Hrows].
    intros r t Ht. by apply record_of_parties. }
  destruct (parse_transaction_rows_known headers _ _ [] Hps)
    as (ents & Hparse & Hty & Hkn).
  assert (∃ t0, record_of headers r0 = Return t0) as [t0 Ht0].
  { inversion Hrows; subst. by eexists. }
  destruct (replay_no_failure headers date format (r0 :: rest) ts ents Hrows)
    as (ents' & res & Hrep).
  { rewrite Forall_fmap in Hkn. exact Hkn. }
  { rewrite Forall_fmap. eapply Forall_impl; [|exact Hty].
    intros e He. cbn. rewrite He. unfold allowedToPay. right. left. }
  exists ents, ents', res. split; [|split; [|done]].
  - unfold parseLedger, parseEntities_files, open_csv. rewrite Hfs.
    unfold parseEntities. by rewrite Hparse.
  - unfold getBalanceAtDate, parse_date.
    by rewrite Hd, (record_of_headers _ _ _ _ _ Ht0).
Qed.

(** X20: a ledger that parses a well-formed transactions file and is then
    asked for the balances at a date written in the format of the dates of
    the file, ["%Y-%m-%d"], does not fail: every name of a record is the
    name of a parsed entity and every parsed entity is allowed to pay, so
    every transfer on or before the date succeeds. *)
Theorem parseLedger_then_getBalanceAtDate (self : Ledger) (f : string)
    (headers r0 : row) (rest : list row) (ts : list Transaction)
    (d : string) (date : Z) :
  fs f = Some (headers :: r0 :: rest) →
  Forall2 (λ r t, record_of headers r = Return t) (r0 :: rest) ts →
  strptime d "%Y-%m-%d" = Some date →
  ∃ ents ents' res,
    parseLedger self (Some f) = (mkLedger (Some ents) (Some f), Done ()) ∧
    Ledger_getBalanceAtDate (mkLedger (Some ents) (Some f)) (Some d) "%Y-%m-%d"
    = (mkLedger (Some ents') (Some f), Done res).
Proof.
  intros Hfs Hrows Hd.
  destruct (parse_then_replay self f headers r0 rest ts d "%Y-%m-%d" date
              Hfs Hrows Hd)
    as (ents & ents' & res & Hparse & Hget & _).
  exists ents, ents', res. split; [done|].
  unfold Ledger_getBalanceAtDate, parse_date, open_csv.
  cbn [self_entities self_ledgerFile]. by rewrite Hd, Hfs, Hget.
Qed.

(** X21: printing the balances at a date on or after the date of every
    record fails.  After a well-formed transactions file is parsed,
    [printBalanceAtDate] for such a date applies every transfer, prints
    nothing and raises [AttributeError], as no snapshot is returned to it. *)
Theorem printBalanceAtDate_after_last_record (self : Ledger) (f : string)
    (headers r0 : row) (rest : list row) (ts : list Transaction)
    (d format : string) (date : Z) :
  fs f = Some (headers :: r0 :: rest) →
  Forall2 (λ r t, record_of headers r = Return t ∧ tx_date t ≤ date)
    (r0 :: rest) ts →
  strptime d format = Some date →
  ∃ ents ents',
    parseLedger self (Some f) = (mkLedger (Some ents) (Some f), Done ()) ∧
    apply_in_order ents ts = (ents', Return ()) ∧
    printBalanceAtDate (mkLedger (Some ents) (Some f)) (Some d) format
    = (mkLedger (Some ents') (Some f), [], Failed (Py AttributeError)).
Proof.
  intros Hfs Hrows Hd.
  assert (Forall2 (λ r t, record_of headers r = Return t) (r0 :: rest) ts)
    as Hrows'.
  { eapply Forall2_impl; [|exact Hrows]. by intros ? ? [? _]. }
  destruct (parse_then_replay self f headers r0 rest ts d format date Hfs Hrows' Hd)
    as (ents & ents' & res & Hparse & Hget & Hrep).
  rewrite <- (app_nil_r (r0 :: rest)) in Hrep.
  rewrite (replay_app _ _ _ _ _ _ _ [] _ _ Hrows) in Hrep.
  destruct (apply_in_order ents ts) as [st1 [[]|e]] eqn:Hap; [|done].
  cbn in Hrep. injection Hrep as <- <-.
  exists ents, st1. split; [done|]. split; [done|].
  unfold printBalanceAtDate, Ledger_getBalanceAtDate, parse_date, open_csv.
  cbn [self_entities self_ledgerFile]. by rewrite Hd, Hfs, Hget.
Qed.

(** X22: [printBalanceAtDate] prints a whole report or nothing.  When it
    succeeds it has printed one line for the date and one line for each
    entity of the ledger; when it fails it has printed no line. *)
Theorem printBalanceAtDate_all_or_nothing (self : Ledger) (date : option string)
    (format : string) :
  match printBalanceAtDate self date format with
  | (self', lines, Done _) =>
    ∃ ents, self_entities self' = Some ents
            ∧ List.length lines = S (List.length ents)
  | (self', lines, Failed _) => lines = []
  end.
Proof.
  unfold printBalanceAtDate.
  destruct (Ledger_getBalanceAtDate self date format) as [self' [[[key l]|]|e]] eqn:E;
    [|done..].
  unfold Ledger_getBalanceAtDate in E. destruct date as [d|]; [|done].
  destruct (parse_date strptime d format); [|done].
  destruct (open_csv fs (self_ledgerFile self)) as [rows|]; [|done].
  destruct (self_entities self) as [ents|].
  - pose proof (getBalanceAtDate_untouched strptime strftime float ents rows
                  (Some d) format) as [_ Hsn].
    destruct (getBalanceAtDate ents rows (Some d) format) as [ents' r].
    injection E as <- Hr. destruct r as [[sn|]|]; try done.
    injection Hr as ->. specialize (Hsn _ eq_refl). simpl in Hsn. subst l.
    exists ents'. split; [done|]. simpl. by rewrite !length_fmap.
  - exfalso. injection E as _ Hr. unfold replay_unparsed in Hr.
    destruct rows as [|headers data]; [done|].
    destruct (_ || _); [done|]. destruct data as [|r ?]; [done|].
    by destruct (field headers r "sender").
Qed.

End Ledger_object.

(** ** The further properties on concrete ledgers *)

Lemma getBalanceAtDate_snapshot_consistent_witness :
  (∃ d dt, Some "2021-01-01" = Some d ∧ iso_strptime d fmt = Some dt
     ∧ "2021-01-01" = iso_strftime dt fmt) ∧
  [("Alice", 70); ("Carol", 50)]
  = (λ e, (name e, balance e)) <$> [set_balance 70 alice; set_balance 50 carol] ∧
  List.length [("Alice", 70); ("Carol", 50)] = List.length [alice; carol].
Proof.
  apply (getBalanceAtDate_snapshot_consistent iso_strptime iso_strftime
           whole_float [alice; carol] ledger_alice_carol (Some "2021-01-01") fmt
           [set_balance 70 alice; set_balance 50 carol] "2021-01-01"
           [("Alice", 70); ("Carol", 50)]).
  vm_compute. reflexivity.
Defined.

Lemma getBalanceAtDate_no_rollback_witness :
  getBalanceAtDate iso_strptime iso_strftime whole_float [alice; bob]
    (ledger_headers :: [["2021-01-01"; "Alice"; "Bob"; "30"]]
                       ++ ["2021-01-02"; "Bob"; "Alice"; "10"] :: [])
    (Some "2021-01-02") fmt
  = ([set_balance 70 alice; set_balance 80 bob],
     Raise (Exception (not_allowed_msg "company"))).
Proof.
  apply (getBalanceAtDate_no_rollback iso_strptime iso_strftime whole_float
           [alice; bob] ledger_headers [["2021-01-01"; "Alice"; "Bob"; "30"]]
           ["2021-01-02"; "Bob"; "Alice"; "10"] []
           [mkTransaction 20210101 "Alice" "Bob" 30]
           (mkTransaction 20210102 "Bob" "Alice" 10)
           "2021-01-02" fmt 20210102).
  - reflexivity.
  - constructor; [|constructor]. split; [reflexivity|]. simpl. lia.
  - reflexivity.
  - simpl. lia.
  - reflexivity.
  - reflexivity.
Defined.


Lemma replay_bad_amount_witness :
  replay iso_strptime iso_strftime whole_float ledger_headers 20210101 fmt
    [alice; carol] [row_bad_amount]
  = ([alice; carol], Raise ValueError).
Proof.
  apply (replay_bad_amount iso_strptime iso_strftime whole_float ledger_headers
           20210101 fmt [alice; carol] row_bad_amount []
           "Alice" "Carol" "2021-01-05" "five" 20210105); reflexivity.
Defined.

Lemma getBalanceAtDate_later_cutoff_witness :
  getBalanceAtDate iso_strptime iso_strftime whole_float [alice; carol]
    (ledger_headers :: [row_day1] ++ row_day5 :: [row_day2])
    (Some "2021-01-05") fmt
  = getBalanceAtDate iso_strptime iso_strftime whole_float
      [set_balance 70 alice; set_balance 50 carol]
      (ledger_headers :: row_day5 :: [row_day2]) (Some "2021-01-05") fmt.
Proof.
  apply (getBalanceAtDate_later_cutoff iso_strptime iso_strftime whole_float
           [alice; carol] ledger_headers [row_day1] row_day5 [row_day2]
           [mkTransaction 20210101 "Alice" "Carol" 30]
           (mkTransaction 20210105 "Alice" "Carol" 5)
           "2021-01-02" "2021-01-05" fmt 20210102 20210105
           [set_balance 70 alice; set_balance 50 carol]
           ("2021-01-02", [("Alice", 70); ("Carol", 50)])).
  - reflexivity.
  - reflexivity.
  - lia.
  - constructor; [|constructor]. split; [reflexivity|]. simpl. lia.
  - reflexivity.
  - simpl. lia.
  - vm_compute. reflexivity.
Defined.

Lemma getBalanceAtDate_missing_header_witness :
  getBalanceAtDate iso_strptime iso_strftime whole_float [alice; carol]
    (headers_no_receiver :: [["2021-01-01"; "Alice"; "30"]])
    (Some "2021-01-01") fmt
  = ([alice; carol], Raise (Exception headers_msg)).
Proof.
  apply (getBalanceAtDate_missing_header iso_strptime iso_strftime whole_float
           [alice; carol] headers_no_receiver [["2021-01-01"; "Alice"; "30"]]
           "2021-01-01" fmt "receiver" 20210101).
  - reflexivity.
  - right. left.
  - apply (bool_decide_eq_false_1 ("receiver" ∈ headers_no_receiver)).
    vm_compute. reflexivity.
Defined.

Lemma getBalanceAtDate_balance_witness :
  [("Alice", 40); ("Carol", 50)] !! 0%nat
  = Some (name alice,
          balance_after (name alice) (balance alice)
            [mkTransaction 20210101 "Alice" "ALICE" 30;
             mkTransaction 20210101 "Alice" "Carol" 30]).
Proof.
  apply (getBalanceAtDate_balance iso_strptime iso_strftime whole_float
           [alice; carol] ledger_headers
           [["2021-01-01"; "Alice"; "ALICE"; "30"]; row_day1] row_day5 [row_day2]
           [mkTransaction 20210101 "Alice" "ALICE" 30;
            mkTransaction 20210101 "Alice" "Carol" 30]
           (mkTransaction 20210105 "Alice" "Carol" 5)
           "2021-01-02" fmt 20210102
           [set_balance 40 alice; set_balance 50 carol] "2021-01-02"
           [("Alice", 40); ("Carol", 50)] 0 alice).
  - reflexivity.
  - constructor; [|constructor; [|constructor]];
      (split; [reflexivity|simpl; lia]).
  - reflexivity.
  - simpl. lia.
  - reflexivity.
  - reflexivity.
  - vm_compute. reflexivity.
Defined.

Lemma parseEntities_entities_file_witness :
  parseEntities whole_float (Some entities_file) None
  = Return [mkEntity "Alice" (Some "person") 100;
            mkEntity "Bob" (Some "company") 50;
            mkEntity "Carol" (Some "") 20].
Proof.
  apply (parseEntities_entities_file whole_float
           ["name"; "type"; "startingBalance"] (tail entities_file)
           [("Alice", "person", 100); ("Bob", "company", 50); ("Carol", "", 20)]
           None).
  constructor; [|constructor; [|constructor; [|constructor]]].
  - split; [reflexivity|]. split; [reflexivity|]. by exists "100".
  - split; [reflexivity|]. split; [reflexivity|]. by exists "50".
  - split; [reflexivity|]. split; [reflexivity|]. by exists "20".
Defined.

Lemma parseEntities_file_payers_witness :
  Forall (λ e, is_Some (type e)
               ∧ (type e ∈ allowedToPay ↔ type e = Some "person"))
    [mkEntity "Alice" (Some "person") 100;
     mkEntity "Bob" (Some "company") 50;
     mkEntity "Carol" (Some "") 20].
Proof.
  apply (parseEntities_file_payers whole_float entities_file None).
  reflexivity.
Defined.

Lemma parseEntities_transactions_shape_witness :
  List.length parsed_two_days = (2 * 2)%nat ∧
  Forall (λ e, type e = None ∧ balance e = 0 ∧ type e ∈ allowedToPay)
    parsed_two_days ∧
  total parsed_two_days = 0.
Proof.
  apply (parseEntities_transactions_shape whole_float ledger_headers
           (tail ledger_two_days) parsed_two_days).
  reflexivity.
Defined.

Lemma parseEntities_no_sender_column_witness :
  parseEntities whole_float None (Some [headers_from_to]) = Return [] ∧
  parseEntities whole_float None
    (Some (headers_from_to :: ["2021-01-01"; "Alice"; "Bob"; "30"] :: []))
  = Raise ValueError.
Proof.
  apply (parseEntities_no_sender_column whole_float headers_from_to
           ["2021-01-01"; "Alice"; "Bob"; "30"] []).
  apply (bool_decide_eq_false_1 ("sender" ∈ headers_from_to)).
  vm_compute. reflexivity.
Defined.

Lemma parseLedger_then_getBalanceAtDate_witness :
  ∃ ents ents' res,
    parseLedger disk whole_float Ledger_init (Some "transactions.csv")
    = (mkLedger (Some ents) (Some "transactions.csv"), Done ()) ∧
    Ledger_getBalanceAtDate disk iso_strptime iso_strftime whole_float
      (mkLedger (Some ents) (Some "transactions.csv")) (Some "2021-01-01")
      "%Y-%m-%d"
    = (mkLedger (Some ents') (Some "transactions.csv"), Done res).
Proof.
  apply (parseLedger_then_getBalanceAtDate disk iso_strptime iso_strftime
           whole_float Ledger_init "transactions.csv" ledger_headers
           ["2021-01-01"; "Alice"; "Bob"; "30"]
           [["2021-01-02"; "Bob"; "Alice"; "10"]]
           [mkTransaction 20210101 "Alice" "Bob" 30;
            mkTransaction 20210102 "Bob" "Alice" 10]
           "2021-01-01" 20210101).
  - reflexivity.
  - constructor; [reflexivity|]. constructor; [reflexivity|]. constructor.
  - reflexivity.
Defined.

Lemma printBalanceAtDate_after_last_record_witness :
  ∃ ents ents',
    parseLedger disk whole_float Ledger_init (Some "one_day.csv")
    = (mkLedger (Some ents) (Some "one_day.csv"), Done ()) ∧
    apply_in_order ents [mkTransaction 20210101 "Alice" "Carol" 30]
    = (ents', Return ()) ∧
    printBalanceAtDate disk iso_strptime iso_strftime whole_float
      ascii_capitalize whole_format_2f
      (mkLedger (Some ents) (Some "one_day.csv")) (Some "2021-01-01") fmt
    = (mkLedger (Some ents') (Some "one_day.csv"), [],
       Failed (Py AttributeError)).
Proof.
  apply (printBalanceAtDate_after_last_record disk iso_strptime iso_strftime
           whole_float ascii_capitalize whole_format_2f Ledger_init
           "one_day.csv" ledger_headers row_day1 []
           [mkTransaction 20210101 "Alice" "Carol" 30]
           "2021-01-01" fmt 20210101).
  - reflexivity.
  - constructor; [|constructor]. split; [reflexivity|]. simpl. lia.
  - reflexivity.
Defined.
